(** * The cereal dashboard pipeline (load, analyze, visualize)

    A shallow embedding of the two dashboard scripts

      - [Preswald-Assessment/hello.py]        (module [Draft])
      - [preswald-assessment-final/hello.py]  (module [Final])

    Both scripts define three workflow atoms, [load_data], [analyze_data]
    and [visualize_data].  Tables are data frames: an ordered list of rows
    over named columns.  A number is an exact rational or one of the two
    infinities a float can hold; NaN and pd.NA are the missing marker, the
    cell [NA].  What the library computes on the IEEE double itself
    (rounding to two decimals, the summary statistics) is taken from the
    backend, not defined here.  Calls into the dashboard
    framework are recorded as a trace of events, and a Python exception is
    the left injection of the result. *)

From stdpp Require Import base strings gmap list numbers pretty sorting.
From Stdlib Require Import QArith Qcanon.

Local Open Scope Qc_scope.

(** ** Numbers *)

(** The values of a float other than NaN: a finite value, or an infinity
    (the text "inf" parses to one). *)
Inductive number : Type :=
  | Fin (q : Qc)
  | PosInf
  | NegInf.

Coercion Fin : Qc >-> number.

Global Instance number_eq_dec : EqDecision number.
Proof. solve_decision. Defined.

Definition number_lt (x y : number) : Prop :=
  match x, y with
  | Fin p, Fin q => p < q
  | Fin _, PosInf => True
  | NegInf, Fin _ => True
  | NegInf, PosInf => True
  | _, _ => False
  end.

Definition number_le (x y : number) : Prop :=
  match x, y with
  | Fin p, Fin q => p ≤ q
  | _, PosInf => True
  | NegInf, _ => True
  | _, _ => False
  end.

Global Instance number_lt_dec : RelDecision number_lt.
Proof. intros [p| |] [q| |]; simpl; apply _. Defined.

Global Instance number_le_dec : RelDecision number_le.
Proof. intros [p| |] [q| |]; simpl; apply _. Defined.

Global Arguments number_lt : simpl never.
Global Arguments number_le : simpl never.

Declare Scope number_scope.
Delimit Scope number_scope with number.
Notation "x < y" := (number_lt x y) : number_scope.
Notation "x ≤ y" := (number_le x y) : number_scope.
Local Open Scope number_scope.

(** ** Cells, rows and data frames *)

Inductive cell : Type :=
  | NA
  | Num (q : number)
  | Str (s : string).

Global Instance cell_eq_dec : EqDecision cell.
Proof. solve_decision. Defined.

Definition isna (v : cell) : bool :=
  match v with NA => true | _ => false end.

Definition notna (v : cell) : bool := negb (isna v).

Abbreviation row := (gmap string cell).

Record DataFrame : Type := mkDF {
  columns : list string;
  rows : list row
}.

(** The value of a row in a column; a row without the key reads as missing. *)
Definition at_ (r : row) (c : string) : cell := default NA (r !! c).

(** [pd.DataFrame()] *)
Definition empty_frame : DataFrame := mkDF [] [].

(** [df.empty]: some axis has length zero. *)
Definition empty (df : DataFrame) : bool :=
  match columns df, rows df with
  | [], _ | _, [] => true
  | _, _ => false
  end.

(** [len(df)] *)
Definition len (df : DataFrame) : nat := length (rows df).

(** ** Exceptions and the trace monad *)

Inductive exn : Type :=
  | KeyError (key : string)
  | TypeError (msg : string)
  | AttributeError (msg : string)
  | ExternalError (msg : string).

(** [str(e)] *)
Definition str_exn (e : exn) : string :=
  match e with
  | KeyError k => "'" +:+ k +:+ "'"
  | TypeError m | AttributeError m | ExternalError m => m
  end.

Inductive level : Type := info | success | warning | error.

Inductive figure : Type :=
  | histogram (df : DataFrame) (x title : string)
  | scatter (df : DataFrame) (x y title : string)
  | box (df : DataFrame) (x y title : string)
  | bar (df : DataFrame) (x y title : string).

(** What the presentation sink receives. *)
Inductive event : Type :=
  | EvText (s : string)
  | EvTable (df : DataFrame) (title : string)
  | EvAlert (msg : string) (lv : level)
  | EvSeparator
  | EvSidebar
  | EvSlider (label : string) (min_val max_val step default : Z)
  | EvPlotly (fig : figure).

Definition result (A : Type) : Type := exn + A.

(** A computation emits events and then either raises or returns. *)
Definition M (A : Type) : Type := list event * result A.

Definition ret {A} (a : A) : M A := ([], inr a).
Definition raise {A} (e : exn) : M A := ([], inl e).
Definition emit (ev : event) : M unit := ([ev], inr tt).
Definition lift {A} (r : result A) : M A := ([], r).

Definition bind {A B} (m : M A) (f : A → M B) : M B :=
  match m with
  | (tr, inl e) => (tr, inl e)
  | (tr, inr a) => let '(tr', r) := f a in (tr ++ tr', r)
  end.

(** [try: m except Exception as e: h e] *)
Definition try_except {A} (m : M A) (h : exn → M A) : M A :=
  match m with
  | (tr, inl e) => let '(tr', r) := h e in (tr ++ tr', r)
  | (tr, inr a) => (tr, inr a)
  end.

Notation "'let*' x ':=' m 'in' k" := (bind m (λ x, k))
  (at level 10, x name, k at level 200).
Notation "m ;;; k" := (bind m (λ _, k))
  (at level 100, right associativity).

Fixpoint for_each {A} (l : list A) (body : A → M unit) : M unit :=
  match l with
  | [] => ret tt
  | x :: l' => body x ;;; for_each l' body
  end.

(** Binding in the pure error part. *)
Definition rbind {A B} (r : result A) (f : A → result B) : result B :=
  match r with inl e => inl e | inr a => f a end.

Notation "'let+' x ':=' r 'in' k" := (rbind r (λ x, k))
  (at level 10, x name, k at level 200).

Fixpoint rmapM {A B} (f : A → result B) (l : list A) : result (list B) :=
  match l with
  | [] => inr []
  | x :: l' => rbind (f x) (λ y, rbind (rmapM f l') (λ ys, inr (y :: ys)))
  end.

(** ** The data-frame operations the scripts call *)

Definition require_col (df : DataFrame) (c : string) : result unit :=
  if bool_decide (c ∈ columns df) then inr tt else inl (KeyError c).

Fixpoint require_cols (df : DataFrame) (cs : list string) : result unit :=
  match cs with
  | [] => inr tt
  | c :: cs' => rbind (require_col df c) (λ _, require_cols df cs')
  end.

(** [df[c]] *)
Definition getitem (df : DataFrame) (c : string) : result (list cell) :=
  rbind (require_col df c) (λ _, inr ((λ r, at_ r c) <$> rows df)).

(** [df[c] = f(row)]: overwrite or append the column. *)
Definition setitem (c : string) (f : row → cell) (df : DataFrame) : DataFrame :=
  mkDF (if bool_decide (c ∈ columns df) then columns df else columns df ++ [c])
       ((λ r, <[c := f r]> r) <$> rows df).

(** [df[mask]] for a boolean series, given as a predicate on rows. *)
Definition loc (df : DataFrame) (mask : row → bool) : DataFrame :=
  mkDF (columns df) (List.filter mask (rows df)).

(** [pd.to_numeric(v, errors="coerce")] on one cell; the float parser is the
    library's and is passed in. *)
Definition to_numeric (parse_float : string → option number) (v : cell) : cell :=
  match v with
  | NA => NA
  | Num q => Num q
  | Str s => match parse_float s with Some q => Num q | None => NA end
  end.

(** [df[c] = pd.to_numeric(df[c], errors="coerce")] *)
Definition coerce_col (parse_float : string → option number) (c : string)
    (df : DataFrame) : result DataFrame :=
  rbind (require_col df c)
        (λ _, inr (setitem c (λ r, to_numeric parse_float (at_ r c)) df)).

Fixpoint coerce_cols (parse_float : string → option number) (cs : list string)
    (df : DataFrame) : result DataFrame :=
  match cs with
  | [] => inr df
  | c :: cs' => rbind (coerce_col parse_float c df) (coerce_cols parse_float cs')
  end.

Definition complete_on (cs : list string) (r : row) : bool :=
  forallb (λ c, notna (at_ r c)) cs.

(** [df.dropna(subset=cs)] *)
Definition dropna_subset (cs : list string) (df : DataFrame) : result DataFrame :=
  rbind (require_cols df cs) (λ _, inr (loc df (complete_on cs))).

(** [df.dropna()] *)
Definition dropna (df : DataFrame) : DataFrame :=
  loc df (complete_on (columns df)).

(** [series.map(d)] on one cell: keys outside the dict give the missing marker. *)
Definition map_cell (d : gmap string string) (v : cell) : cell :=
  match v with
  | Str s => match d !! s with Some t => Str t | None => NA end
  | _ => NA
  end.

(** [df[dst] = df[src].map(d)] *)
Definition map_col (dst src : string) (d : gmap string string)
    (df : DataFrame) : result DataFrame :=
  rbind (require_col df src)
        (λ _, inr (setitem dst (λ r, map_cell d (at_ r src)) df)).

(** Ordering comparison of a cell with a number: a missing cell compares
    false, a string cell raises. *)
Definition comparable (v : cell) : result unit :=
  match v with
  | Str _ => inl (TypeError "'>' not supported between instances of 'str' and 'int'")
  | _ => inr tt
  end.

Definition gt_cell (t : number) (v : cell) : bool :=
  match v with Num q => bool_decide (t < q) | _ => false end.

Definition ge_cell (t : number) (v : cell) : bool :=
  match v with Num q => bool_decide (t ≤ q) | _ => false end.

(** [df[c] > t] and [df[c] >= t] as boolean series. *)
Definition series_cmp (cmp : number → cell → bool) (c : string) (t : number)
    (df : DataFrame) : result (row → bool) :=
  rbind (getitem df c) (λ vs,
  rbind (rmapM comparable vs) (λ _,
  inr (λ r, cmp t (at_ r c)))).

Definition series_gt := series_cmp gt_cell.
Definition series_ge := series_cmp ge_cell.

(** [df.replace(-1, pd.NA)] on one cell, and table-wide. *)
Definition replace_cell (v : cell) : cell :=
  match v with
  | Num q => if bool_decide (q = -1) then NA else Num q
  | _ => v
  end.

Definition replace_row (r : row) : row := replace_cell <$> r.

Definition replace_sentinel (df : DataFrame) : DataFrame :=
  mkDF (columns df) (replace_row <$> rows df).

(** [df[cs]]: projection onto a list of columns. *)
Definition restrict (cs : list string) (r : row) : row :=
  filter (λ kv, kv.1 ∈ cs) r.

Definition project (cs : list string) (df : DataFrame) : result DataFrame :=
  rbind (require_cols df cs) (λ _, inr (mkDF cs (restrict cs <$> rows df))).

(** [df.head(n)] *)
Definition head (n : nat) (df : DataFrame) : DataFrame :=
  mkDF (columns df) (take n (rows df)).

(** ** Value counts and the missing-value summary *)

(** Distinct values in order of first appearance. *)
Definition unique (l : list cell) : list cell :=
  reverse (remove_dups (reverse l)).

Definition count (v : cell) (l : list cell) : nat :=
  length (List.filter (λ w, bool_decide (w = v)) l).

Definition by_count_desc (a b : cell * nat) : Prop := (b.2 ≤ a.2)%nat.

Global Instance by_count_desc_dec : RelDecision by_count_desc.
Proof. intros a b. unfold by_count_desc. apply _. Defined.

(** [series.value_counts()]: missing cells are not counted, the most frequent
    value comes first. *)
Definition value_counts (l : list cell) : list (cell * nat) :=
  let vs := List.filter notna l in
  merge_sort by_count_desc ((λ v, (v, count v vs)) <$> unique vs).

Definition nat_cell (n : nat) : cell := Num (Qc_of_Z (Z.of_nat n)).

(** [counts = df[col].value_counts().reset_index(); counts.columns = [col, "Count"]] *)
Definition value_counts_frame (col : string) (df : DataFrame) : result DataFrame :=
  let+ vs := getitem df col in
  inr (mkDF [col; "Count"]
         ((λ p, <["Count" := nat_cell p.2]> {[col := p.1]}) <$> value_counts vs)).

(** [df.isnull().sum()] *)
Definition isnull_sum (df : DataFrame) : list (string * nat) :=
  (λ c, (c, length (List.filter (λ r, isna (at_ r c)) (rows df)))) <$> columns df.

(** [missing[missing > 0].reset_index()] with columns ["Column", "Missing Count"] *)
Definition missing_frame (missing : list (string * nat)) : DataFrame :=
  mkDF ["Column"; "Missing Count"]
       ((λ p, <["Missing Count" := nat_cell p.2]> {["Column" := Str p.1]})
          <$> List.filter (λ p, bool_decide (0 < p.2)%nat) missing).

(** ** Grouped means *)

Definition numbers (vs : list cell) : list number :=
  omap (λ v, match v with Num q => Some q | _ => None end) vs.

Definition finite (x : number) : option Qc :=
  match x with Fin q => Some q | _ => None end.

(** The mean of the numbers present: none gives NaN; opposite infinities
    cancel to NaN; one kind of infinity wins over every finite value. *)
Definition mean (xs : list number) : cell :=
  if bool_decide (PosInf ∈ xs)
  then (if bool_decide (NegInf ∈ xs) then NA else Num PosInf)
  else if bool_decide (NegInf ∈ xs) then Num NegInf
  else match omap finite xs with
       | [] => NA
       | q :: qs =>
           Num (Fin (foldr Qcplus 0%Qc (q :: qs) / Qc_of_Z (Z.of_nat (length (q :: qs))))%Qc)
       end.

Definition numeric (v : cell) : result unit :=
  match v with
  | Str _ => inl (TypeError "agg function failed [how->mean,dtype->object]")
  | _ => inr tt
  end.

(** Mean of a column inside one group, skipping missing cells. *)
Definition mean_cell (vs : list cell) : result cell :=
  let+ _ := rmapM numeric vs in
  inr (mean (numbers vs)).

(** Group keys are sorted; strings by [String.leb], numbers before strings. *)
Definition cell_le (a b : cell) : Prop :=
  match a, b with
  | NA, _ => True
  | _, NA => False
  | Num p, Num q => p ≤ q
  | Num _, Str _ => True
  | Str _, Num _ => False
  | Str s, Str t => String.leb s t = true
  end.

Global Instance cell_le_dec : RelDecision cell_le.
Proof. intros [|p|s] [|q|t]; simpl; apply _. Defined.

Definition group_keys (key : string) (df : DataFrame) : list cell :=
  merge_sort cell_le (unique (List.filter notna ((λ r, at_ r key) <$> rows df))).

Definition group_rows (key : string) (k : cell) (df : DataFrame) : list row :=
  List.filter (λ r, bool_decide (at_ r key = k)) (rows df).

(** One entry of the grouped result: the index value and the means. *)
Definition group_mean_row (key : string) (cs : list string) (df : DataFrame)
    (k : cell) : result (cell * row) :=
  let+ ms := rmapM (λ c, let+ m := mean_cell ((λ r, at_ r c) <$> group_rows key k df) in
                         inr (c, m)) cs in
  inr (k, list_to_map ms).

(** [df.groupby(key)[cs].mean()]: missing keys form no group. *)
Definition groupby_mean (key : string) (cs : list string) (df : DataFrame)
    : result (list (cell * row)) :=
  let+ _ := require_col df key in
  let+ _ := require_cols df cs in
  rmapM (group_mean_row key cs df) (group_keys key df).

(** [g.reset_index()]: the index becomes the column [key]. *)
Definition reset_index (key : string) (cs : list string) (g : list (cell * row))
    : DataFrame :=
  mkDF (key :: cs) ((λ p : cell * row, <[key := p.1]> p.2) <$> g).

(** The dtype of a column of an analyzed table.  The Loader has dropped the
    rows with NaN in the numeric columns, so a missing cell there is a pd.NA
    put in by [replace(-1, pd.NA)], and a column holding a pd.NA no longer
    has a float dtype: it is an object column. *)
Definition float_dtype (df : DataFrame) (c : string) : bool :=
  forallb (λ r, notna (at_ r c)) (rows df).

Definition float_cols (df : DataFrame) (cs : list string) : list string :=
  List.filter (float_dtype df) cs.

Global Arguments float_cols : simpl never.

(** Exact rounding, half to even.  It stands in for the library's rounding
    in the closed examples only: the library rounds the IEEE double. *)
Definition rint (q : Qc) : Z :=
  let n := Qnum q in
  let d := Zpos (Qden q) in
  let f := (n `div` d)%Z in
  match (2 * (n `mod` d) ?= d)%Z with
  | Lt => f
  | Gt => (f + 1)%Z
  | Eq => if Z.even f then f else (f + 1)%Z
  end.

Definition half_even2 (x : number) : number :=
  match x with
  | Fin q => Fin (Qc_of_Z (rint (q * Qc_of_Z 100)) / Qc_of_Z 100)%Qc
  | _ => x
  end.

Definition round_cell (rnd : number → number) (v : cell) : cell :=
  match v with Num q => Num (rnd q) | _ => v end.

(** [g.round(2)] on a grouped result: the columns in [floats], those of
    float dtype, are rounded by the library's [rnd]; object columns are left
    as they are. *)
Definition round_grouped (rnd : number → number) (floats : list string)
    (g : list (cell * row)) : list (cell * row) :=
  (λ p : cell * row,
     (p.1, map_imap (λ c v, Some (if bool_decide (c ∈ floats)
                                  then round_cell rnd v else v)) p.2)) <$> g.

(** ** The external collaborators *)

(** The dataset store, the query executor, the presentation sink and the
    parts of the data-frame library that are not modelled by value. *)
Record Backend : Type := {
  get_df : string → result DataFrame;
  parse_float : string → option number;
  round2 : number → number;
  query : string → string → result (option DataFrame);
  render_table : DataFrame → string → result unit;
  describe : DataFrame → result DataFrame;
  dtype_str : DataFrame → string → string;
  object_columns : DataFrame → list string;
  str_cell : cell → string
}.

Section sink.
Context (E : Backend).

Definition text (s : string) : M unit := emit (EvText s).
Definition alert (msg : string) (lv : level) : M unit := emit (EvAlert msg lv).
Definition separator : M unit := emit EvSeparator.
Definition plotly (fig : figure) : M unit := emit (EvPlotly fig).

(** [table(df, title=...)]: nothing is shown when the sink raises. *)
Definition table (df : DataFrame) (title : string) : M unit :=
  lift (render_table E df title) ;;; emit (EvTable df title).

(** [pd.DataFrame({"Column": df.columns, "Data Type": dtypes})] *)
Definition dtypes_frame (df : DataFrame) : DataFrame :=
  mkDF ["Column"; "Data Type"]
       ((λ c, <["Data Type" := Str (dtype_str E df c)]> {["Column" := Str c]})
          <$> columns df).
End sink.

Definition mfr_map : gmap string string :=
  list_to_map [("A", "American Home Food Products"); ("G", "General Mills");
               ("K", "Kelloggs"); ("N", "Nabisco"); ("P", "Post");
               ("Q", "Quaker Oats"); ("R", "Ralston Purina")].

Definition type_map : gmap string string :=
  list_to_map [("C", "Cold"); ("H", "Hot")].

(** ** [Preswald-Assessment/hello.py] *)

Module Draft.
Section atoms.
Context (E : Backend).

(** The body of the [try] block of [load_data]. *)
Definition load_body : result DataFrame :=
  let+ df := get_df E "sample_csv" in
  let+ df := coerce_col (parse_float E) "carbo" df in
  let+ df := coerce_col (parse_float E) "sugars" df in
  let+ df := coerce_col (parse_float E) "potass" df in
  let+ df := dropna_subset ["carbo"; "sugars"; "potass"] df in
  let+ df := map_col "manufacturer_full" "mfr" mfr_map df in
  map_col "type_full" "type" type_map df.

(** [load_data] from its [try] statement on, that is, once [connect()] has
    returned. *)
Definition load_data : M DataFrame :=
  try_except (lift load_body)
    (λ e, alert ("Error loading data: " +:+ str_exn e) error ;;; ret empty_frame).

(** The whole atom: [connect()] is its first statement and stands outside the
    [try]; [connect] is the outcome of that call. *)
Definition load_atom (connect : result unit) : M DataFrame :=
  lift connect ;;; load_data.

(** Clean up: the two positivity filters, then the sentinel replacement. *)
Definition clean (load_data : DataFrame) : result DataFrame :=
  let+ m := series_gt "calories" 0 load_data in
  let df := loc load_data m in
  let+ m := series_gt "rating" 0 df in
  let df := loc df m in
  inr (replace_sentinel df).

Definition column_types (df : DataFrame) : M unit :=
  text "## Column Types" ;;;
  try_except
    (if negb (empty df)
     then table E (dtypes_frame E df) "Column Data Types"
     else text "No data loaded, column types unavailable.")
    (λ e, alert ("Error displaying column types: " +:+ str_exn e) error).

Definition value_counts_tables (df : DataFrame) : M unit :=
  text "## Cereal Category Value Counts" ;;;
  for_each (object_columns E df) (λ col,
    let* counts_df := lift (value_counts_frame col df) in
    table E counts_df ("Top 10 '" +:+ col +:+ "' Values")).

Definition missing_values (df : DataFrame) : M unit :=
  text "## Missing Value Counts" ;;;
  let missing := isnull_sum df in
  if bool_decide (0 < sum_list (snd <$> missing))%nat
  then table E (missing_frame missing) "Missing Values Summary"
  else text "## Missing Values Count: None".

Definition query_text (rating_cutoff : Z) : string :=
  "SELECT name, manufacturer_full, rating " +:+
  "FROM sample_csv " +:+
  "WHERE rating >= " +:+ pretty rating_cutoff +:+ " " +:+
  "ORDER BY rating DESC".

(** [top_rated_df = query(query_text, "sample_csv")]; the [.empty] test
    that follows raises on [None]. *)
Definition top_rated (rating_cutoff : Z) : result DataFrame :=
  let+ r := query E (query_text rating_cutoff) "sample_csv" in
  match r with
  | Some df => inr df
  | None => inl (AttributeError "'NoneType' object has no attribute 'empty'")
  end.

Definition show_top_rated (top_rated_df : DataFrame) (rating_cutoff : Z) : M unit :=
  if negb (empty top_rated_df)
  then
    table E top_rated_df ("Cereals Rated " +:+ pretty rating_cutoff +:+ "+") ;;;
    alert ("🍽️ There are " +:+ pretty (len top_rated_df) +:+
           " cereals rated above " +:+ pretty rating_cutoff +:+ ".") success
  else alert "😕 No cereals found above that rating." warning.

Definition rating_filter (rating_cutoff : Z) : M unit :=
  text "## 🔍 Explore Cereals by Rating Threshold" ;;;
  emit (EvSlider "Minimum Rating" 0 100 5 40) ;;;
  let* top_rated_df := lift (top_rated rating_cutoff) in
  show_top_rated top_rated_df rating_cutoff.

Definition report (df : DataFrame) (rating_cutoff : Z) : M unit :=
  text "# An Understanding and Insightful Analysis of the Cereal Industry" ;;;
  column_types df ;;;
  separator ;;;
  text "## Cereal Analytics & Insights Data" ;;;
  table E df "Sample Data" ;;;
  separator ;;;
  text "## Key Metrics Summary (Numerical Only)" ;;;
  (let* stats := lift (describe E df) in
   table E stats "Numerical Summary") ;;;
  separator ;;;
  value_counts_tables df ;;;
  separator ;;;
  missing_values df ;;;
  separator ;;;
  rating_filter rating_cutoff.

Definition analyze_data (rating_cutoff : Z) (load_data : DataFrame) : M DataFrame :=
  let* df := lift (clean load_data) in
  report df rating_cutoff ;;;
  ret df.

(** [df.dropna().groupby('type_full')[['calories','protein','fat']].mean().reset_index()] *)
Definition avg_df (df : DataFrame) : result DataFrame :=
  let+ g := groupby_mean "type_full" ["calories"; "protein"; "fat"] (dropna df) in
  inr (reset_index "type_full" ["calories"; "protein"; "fat"] g).

Definition visualize_data (analyze_data : DataFrame) : M unit :=
  let df := analyze_data in
  text "## Key Visualizations" ;;;
  plotly (histogram df "calories" "Distribution of Calories") ;;;
  separator ;;;
  plotly (scatter df "protein" "calories" "Protein vs. Calories") ;;;
  separator ;;;
  plotly (box df "manufacturer_full" "rating" "Rating Distribution by Manufacturer") ;;;
  separator ;;;
  let* avg := lift (avg_df df) in
  plotly (bar avg "type_full" "calories" "Average Calories by Type") ;;;
  separator ;;;
  text "## Key Observations" ;;;
  alert "🧮 Most cereals have calorie values clustered between 100 and 120." info ;;;
  alert "💪 There's a modest positive correlation between protein and calories." info ;;;
  alert "🏆 Nabisco and Quaker Oats cereals tend to have higher ratings." success.
End atoms.
End Draft.

(** ** [preswald-assessment-final/hello.py] *)

Module Final.
Section atoms.
Context (E : Backend).

Definition numeric_cols : list string :=
  ["calories"; "protein"; "fat"; "sodium"; "fiber";
   "carbo"; "sugars"; "potass"; "vitamins"; "shelf";
   "weight"; "cups"; "rating"].

(** [load_data] after its first statement, that is, once
    [preswald.connect()] has returned. *)
Definition load_data : M DataFrame :=
  lift (let+ df := get_df E "sample_csv" in
        let+ df := coerce_cols (parse_float E) numeric_cols df in
        let+ df := dropna_subset numeric_cols df in
        let+ df := map_col "manufacturer_full" "mfr" mfr_map df in
        map_col "type_full" "type" type_map df).

(** The whole atom; [connect] is the outcome of [preswald.connect()]. *)
Definition load_atom (connect : result unit) : M DataFrame :=
  lift connect ;;; load_data.

(** Remove non-positive calories and ratings (one conjoined mask over the
    whole table), then the sentinel replacement. *)
Definition clean (load_data : DataFrame) : result DataFrame :=
  let+ m1 := series_gt "calories" 0 load_data in
  let+ m2 := series_gt "rating" 0 load_data in
  let df := loc load_data (λ r, m1 r && m2 r) in
  inr (replace_sentinel df).

(** [q[col].iloc[0]] on a query result that is neither [None] nor empty. *)
Definition first_cell (q : DataFrame) (col : string) : result cell :=
  let+ vs := getitem q col in
  match vs with
  | v :: _ => inr v
  | [] => inl (ExternalError "single positional indexer is out-of-bounds")
  end.

Definition usable (r : option DataFrame) : option DataFrame :=
  match r with
  | Some q => if empty q then None else Some q
  | None => None
  end.

Definition total_query : string := "
        SELECT COUNT(*) AS total_cereals
        FROM sample_csv
    ".

Definition avg_cal_query : string := "
        SELECT ROUND(AVG(CAST(calories AS DOUBLE)), 2) AS avg_calories
        FROM sample_csv
    ".

Definition sugar_query : string := "
        SELECT name,
               CAST(sugars AS DOUBLE) AS sugars
        FROM sample_csv
        ORDER BY sugars DESC
        LIMIT 3
    ".

Definition name_str (v : cell) : result string :=
  match v with
  | Str s => inr s
  | _ => inl (TypeError "sequence item: expected str instance")
  end.

Definition join (sep : string) (l : list string) : string :=
  match l with
  | [] => ""
  | s :: l' => foldl (λ acc t, acc +:+ sep +:+ t) s l'
  end.

Definition getting_started : M unit :=
  text "## Getting Started: Looking at Cereal a Different Way" ;;;
  (let* total_df := lift (query E total_query "sample_csv") in
   match usable total_df with
   | Some q =>
       let* total := lift (first_cell q "total_cereals") in
       alert ("We chose to look at " +:+ str_cell E total +:+
              " cereals out there and found a robust dataset to help us out.") info
   | None => ret tt
   end) ;;;
  (let* avg_cal_df := lift (query E avg_cal_query "sample_csv") in
   match usable avg_cal_df with
   | Some q =>
       let* avg_cal := lift (first_cell q "avg_calories") in
       alert ("Thought that cereal is a high calorie treat? Actually the average calories per modest serving are actually more like " +:+
              str_cell E avg_cal +:+ " calories!") info
   | None => ret tt
   end) ;;;
  (let* sugar_df := lift (query E sugar_query "sample_csv") in
   match usable sugar_df with
   | Some q =>
       let* top3 := lift (let+ vs := getitem q "name" in rmapM name_str vs) in
       alert ("Cereals can pack a sugary punch though! Here's a little insider info on the 3 most sugary cereals to watch out for: " +:+
              join ", " top3) warning
   | None => ret tt
   end).

Definition column_types (df : DataFrame) : M unit :=
  text "## Understanding the Data: Column Types" ;;;
  if negb (empty df)
  then table E (dtypes_frame E df) "Column Data Types"
  else text "No data loaded, column types unavailable.".

Definition value_counts_tables (df : DataFrame) : M unit :=
  text "## The Cereal Dichotomy: Hot vs. Cold Value Counts" ;;;
  for_each (object_columns E df) (λ col,
    let* counts := lift (value_counts_frame col df) in
    table E (head 10 counts) ("Top 10 '" +:+ col +:+ "' Values")).

Definition missing_values (df : DataFrame) : M unit :=
  text "## Full Transparency: Missing Value Counts" ;;;
  let missing := isnull_sum df in
  if bool_decide (0 < sum_list (snd <$> missing))%nat
  then table E (missing_frame missing) "Missing Values Summary"
  else text "No missing values detected.".

(** [df[df["rating"] >= rating_cutoff][["name", "manufacturer_full", "rating"]]] *)
Definition filtered (df : DataFrame) (rating_cutoff : Z) : result DataFrame :=
  let+ m := series_ge "rating" (Qc_of_Z rating_cutoff) df in
  project ["name"; "manufacturer_full"; "rating"] (loc df m).

Definition show_filtered (filtered : DataFrame) (rating_cutoff : Z) : M unit :=
  (if bool_decide (len filtered = 1%nat)
   then alert ("🥣 There is " +:+ pretty (len filtered) +:+
               " cereal rated above " +:+ pretty rating_cutoff +:+ ".") success
   else alert ("🥣 There are " +:+ pretty (len filtered) +:+
               " cereals rated above " +:+ pretty rating_cutoff +:+ ".") success) ;;;
  table E filtered ("Cereals Rated " +:+ pretty rating_cutoff +:+ "+").

Definition rating_filter (df : DataFrame) (rating_cutoff : Z) : M unit :=
  text "## An Interactive Insight: Explore Cereals by Rating Threshold" ;;;
  emit (EvSlider "Minimum Rating" 0 100 5 85) ;;;
  let* f := lift (filtered df rating_cutoff) in
  show_filtered f rating_cutoff.

Definition report (df : DataFrame) (rating_cutoff : Z) : M unit :=
  emit EvSidebar ;;;
  text "# The Cereal Industry: An Interactive Overview With Analytics & Insights" ;;;
  getting_started ;;;
  separator ;;;
  column_types df ;;;
  separator ;;;
  text "## Cereal Analytics & Insights: The Dataset" ;;;
  table E df "Sample Data" ;;;
  separator ;;;
  text "## Key Metrics Summary (Numerical Only)" ;;;
  (let* stats := lift (describe E df) in
   table E stats "Numerical Summary") ;;;
  separator ;;;
  value_counts_tables df ;;;
  separator ;;;
  missing_values df ;;;
  separator ;;;
  rating_filter df rating_cutoff ;;;
  separator.

Definition analyze_data (rating_cutoff : Z) (load_data : DataFrame) : M DataFrame :=
  let* df := lift (clean load_data) in
  report df rating_cutoff ;;;
  ret df.

(** [df.groupby("type_full")[["calories", "protein", "fat"]].mean().round(2).reset_index()] *)
Definition avg_df (df : DataFrame) : result DataFrame :=
  let+ g := groupby_mean "type_full" ["calories"; "protein"; "fat"] df in
  inr (reset_index "type_full" ["calories"; "protein"; "fat"]
         (round_grouped (round2 E) (float_cols df ["calories"; "protein"; "fat"]) g)).

Definition visualize_data (analyze_data : DataFrame) : M unit :=
  let df := analyze_data in
  text "# The Big Picture: Visualizing the Data" ;;;
  plotly (histogram df "calories" "Distribution of Calories") ;;;
  separator ;;;
  plotly (scatter df "protein" "calories" "Protein vs. Calories") ;;;
  separator ;;;
  plotly (box df "manufacturer_full" "rating" "Rating Distribution by Manufacturer") ;;;
  separator ;;;
  let* avg := lift (avg_df df) in
  plotly (bar avg "type_full" "calories" "Average Calories by Type") ;;;
  separator ;;;
  text "## Key Observations: What We Know Based on the Data " ;;;
  alert "🧮 Most cereals have calorie values clustered between 100 and 120 — a common threshold for 'low-calorie' labeling." info ;;;
  alert "💪 A modest positive correlation exists between protein content and calorie count — higher protein usually means more calories." info ;;;
  alert "🏆 Cereals from Nabisco and Quaker Oats tend to score higher in consumer ratings than others." success.
End atoms.
End Final.

(** ** A concrete backend for closed examples

    The dataset is [src]; the sink refuses the titles in [refused]; no string
    parses as a number and the query executor always returns [answer]. *)
Definition stub (src : DataFrame) (answer : option DataFrame)
    (refused : list string) (objs : list string) : Backend := {|
  get_df name :=
    if bool_decide (name = "sample_csv") then inr src
    else inl (ExternalError "unknown dataset");
  parse_float _ := None;
  round2 := half_even2;
  query _ _ := inr answer;
  render_table _ title :=
    if bool_decide (title ∈ refused) then inl (ExternalError "render failed")
    else inr tt;
  describe _ := inr empty_frame;
  dtype_str _ _ := "object";
  object_columns _ := objs;
  str_cell _ := "?"
|}.

Definition num (z : Z) : cell := Num (Qc_of_Z z).

(** A well-formed source row. *)
Definition cereal (name mfr type : string) (calories protein rating : cell) : row :=
  list_to_map
    [("name", Str name); ("mfr", Str mfr); ("type", Str type);
     ("calories", calories); ("protein", protein); ("fat", num 1);
     ("sodium", num 130); ("fiber", num 2); ("carbo", num 15);
     ("sugars", num 6); ("potass", num 40); ("vitamins", num 25);
     ("shelf", num 3); ("weight", num 1); ("cups", num 1);
     ("rating", rating)].

Definition source_columns : list string :=
  ["name"; "mfr"; "type"; "calories"; "protein"; "fat"; "sodium"; "fiber";
   "carbo"; "sugars"; "potass"; "vitamins"; "shelf"; "weight"; "cups"; "rating"].

Definition source (rs : list row) : DataFrame := mkDF source_columns rs.

(** The row test both variants apply before the sentinel replacement. *)
Definition positive (r : row) : bool :=
  gt_cell 0 (at_ r "calories") && gt_cell 0 (at_ r "rating").

(** Test data: a three-row dataset, loaded and analyzed by the final variant. *)
Definition no_match : DataFrame := mkDF ["name"; "manufacturer_full"; "rating"] [].

Definition sample : DataFrame :=
  source [cereal "All-Bran" "K" "C" (num 70) (num 4) (Num (Q2Qc (187 # 2)));
          cereal "Maypo" "A" "H" (num 100) (num 4) (num 55);
          cereal "Zero" "G" "C" (num 0) (num 1) (num 40)].

Definition sample_backend : Backend := stub sample (Some no_match) [] ["name"].

Definition force (m : M DataFrame) : DataFrame :=
  match snd m with inr df => df | inl _ => empty_frame end.

Definition sample_loaded : DataFrame := force (Final.load_data sample_backend).

Definition sample_analyzed : DataFrame :=
  force (Final.analyze_data sample_backend 85 sample_loaded).

(** ** Row-level reading of the Loader *)

(** The effect of the coercion loop on one row. *)
Definition coerce_row (parse : string → option number) (cs : list string) (r : row) : row :=
  foldl (λ r c, <[c := to_numeric parse (at_ r c)]> r) r cs.

(** The two derived columns on one row. *)
Definition enrich (r : row) : row :=
  let r1 := <["manufacturer_full" := map_cell mfr_map (at_ r "mfr")]> r in
  <["type_full" := map_cell type_map (at_ r1 "type")]> r1.

(** A source row whose cells in [cs] are all present and parse. *)
Definition parses_all (parse : string → option number) (cs : list string) (r : row) : bool :=
  forallb (λ c, notna (to_numeric parse (at_ r c))) cs.

(** Coercion, completeness filter and enrichment over the columns [cs]. *)
Definition loader (parse : string → option number) (cs : list string)
    (src : DataFrame) : result DataFrame :=
  let+ df := coerce_cols parse cs src in
  let+ df := dropna_subset cs df in
  let+ df := map_col "manufacturer_full" "mfr" mfr_map df in
  map_col "type_full" "type" type_map df.

(** A dataset with one row that has no calories value. *)
Definition no_calories : DataFrame :=
  source [cereal "Mystery" "K" "C" NA (num 3) (num 60)].

(** The columns of the threshold-filtered view. *)
Definition view_cols : list string := ["name"; "manufacturer_full"; "rating"].

(** The rating column of a table, top to bottom. *)
Definition ratings (df : DataFrame) : list cell := (λ r, at_ r "rating") <$> rows df.

(** A dataset whose ratings ascend, and one with a rating above 100. *)
Definition ascending : DataFrame :=
  source [cereal "Plain" "G" "C" (num 110) (num 2) (num 50);
          cereal "Fancy" "N" "C" (num 90) (num 3) (num 90)].

Definition overrated : DataFrame :=
  source [cereal "Ambrosia" "Q" "C" (num 100) (num 5) (num 150)].

(** The final pipeline up to the Analyzer's output, on the dataset [src]. *)
Definition analyzed_final (src : DataFrame) : DataFrame :=
  let E := stub src None [] [] in
  force (Final.analyze_data E 85 (force (Final.load_data E))).

Definition force_result (r : result DataFrame) : DataFrame :=
  match r with inr df => df | inl _ => empty_frame end.

(** The view of the analyzed sample at the default threshold. *)
Definition sample_view : DataFrame := force_result (Final.filtered sample_analyzed 85).

(** A query answer with a single match. *)
Definition one_match : DataFrame :=
  mkDF ["name"; "manufacturer_full"; "rating"]
       [list_to_map [("name", Str "All-Bran"); ("manufacturer_full", Str "Kelloggs");
                     ("rating", num 93)]].


(** Eleven cereals with distinct names. *)
Definition eleven : DataFrame :=
  source ((λ n, cereal n "K" "C" (num 100) (num 3) (num 50))
            <$> ["100% Bran"; "All-Bran"; "Bran Chex"; "Cheerios"; "Corn Pops";
                 "Kix"; "Life"; "Maypo"; "Smacks"; "Trix"; "Wheaties"]).

(** The draft pipeline up to the Analyzer's output, on the dataset [src]. *)
Definition analyzed_draft (src : DataFrame) : DataFrame :=
  let E := stub src (Some no_match) [] [] in
  force (Draft.analyze_data E 40 (force (Draft.load_data E))).

(** The name counts of the eleven cereals. *)
Definition eleven_counts : DataFrame :=
  force_result (value_counts_frame "name" (analyzed_draft eleven)).

(** The columns averaged by the Visualizer. *)
Definition mean_cols : list string := ["calories"; "protein"; "fat"].

(** A cereal given by its type and calories. *)
Definition typed (type : string) (calories protein : Z) : row :=
  cereal "Cereal" "K" type (num calories) (num protein) (num 50).

(** Two cold cereals with calories 100 and 120, one hot cereal with 90. *)
Definition cold_hot : DataFrame :=
  source [typed "C" 100 3; typed "C" 120 3; typed "H" 90 3].




(** The codes of the two lookup tables. *)
Definition mfr_codes : list string := ["A"; "G"; "K"; "N"; "P"; "Q"; "R"].
Definition type_codes : list string := ["C"; "H"].

(** A backend whose dataset store is down. *)
Definition offline : Backend := {|
  get_df _ := inl (ExternalError "connection refused");
  parse_float _ := None;
  round2 := half_even2;
  query _ _ := inr None;
  render_table _ _ := inr tt;
  describe _ := inr empty_frame;
  dtype_str _ _ := "object";
  object_columns _ := [];
  str_cell _ := "?"
|}.

(** The number of missing cells of a column. *)
Definition missing_count (df : DataFrame) (c : string) : nat :=
  length (List.filter (λ r, isna (at_ r c)) (rows df)).

(** No cell of the table is missing. *)
Definition no_missing (df : DataFrame) : Prop :=
  ∀ c r, c ∈ columns df → r ∈ rows df → at_ r c ≠ NA.

(** A loaded table with a sentinel: the potassium of the cereal is -1. *)
Definition with_sentinel : DataFrame :=
  mkDF ["name"; "calories"; "rating"; "potass"; "manufacturer_full"]
       [list_to_map [("name", Str "Almond Delight"); ("calories", num 110);
                     ("rating", num 34); ("potass", num (-1));
                     ("manufacturer_full", Str "Ralston Purina")]].

(** The column list after [df[c] = ...]. *)
Definition with_col (c : string) (cs : list string) : list string :=
  if bool_decide (c ∈ cs) then cs else cs ++ [c].

(** The columns a source table needs for the final pipeline. *)
Definition required_cols : list string :=
  "name" :: "mfr" :: "type" :: Final.numeric_cols.

(** The number of rows holding [v] in column [col]. *)
Definition occurrences (df : DataFrame) (col : string) (v : cell) : nat :=
  length (List.filter (λ r, bool_decide (at_ r col = v)) (rows df)).

(** Rounding the mean columns of a grouped table, the key column kept. *)
Definition round_means (rnd : number → number) (key : string) (t : DataFrame)
    : DataFrame :=
  mkDF (columns t)
       ((λ r : row, <[key := at_ r key]> (round_cell rnd <$> r)) <$> rows t).

(** The columns the draft Loader reads, and the calories column. *)
Definition draft_cols : list string :=
  ["carbo"; "sugars"; "potass"; "mfr"; "type"; "calories"].

(** A dataset whose calories column is text. *)
Definition text_calories : DataFrame :=
  source [cereal "Corn Pops" "K" "C" (Str "110") (num 1) (num 36)].




(** The backend [E] with a parser that reads the text "inf" as an infinity,
    as the library's parser does. *)
Definition reads_inf (E : Backend) : Backend := {|
  get_df := get_df E;
  parse_float s := if bool_decide (s = "inf") then Some PosInf else parse_float E s;
  round2 := round2 E;
  query := query E;
  render_table := render_table E;
  describe := describe E;
  dtype_str := dtype_str E;
  object_columns := object_columns E;
  str_cell := str_cell E
|}.

(** A dataset whose one row spells its calories "inf". *)
Definition infinite_calories : DataFrame :=
  source [cereal "Endless" "K" "C" (Str "inf") (num 3) (num 60)].




(** * Properties *)

(** ** The order on numbers *)

Lemma number_lt_le (x y : number) : x < y → x ≤ y.
Proof. destruct x, y; unfold number_lt, number_le; try tauto. apply Qclt_le_weak. Qed.

Lemma number_not_le_lt (x y : number) : ¬ x ≤ y → y < x.
Proof. destruct x, y; unfold number_lt, number_le; try tauto. apply Qcnot_le_lt. Qed.

Lemma number_lt_not_le (x y : number) : x < y → ¬ y ≤ x.
Proof. destruct x, y; unfold number_lt, number_le; try tauto. apply Qclt_not_le. Qed.

Lemma number_le_trans (x y z : number) : x ≤ y → y ≤ z → x ≤ z.
Proof. destruct x, y, z; unfold number_le; try tauto. apply Qcle_trans. Qed.

Lemma number_of_Z_le (lo hi : Z) : (lo ≤ hi)%Z → Qc_of_Z lo ≤ Qc_of_Z hi.
Proof. intros H. unfold number_le. by apply (proj1 (Z2Qc_inj_le lo hi)). Qed.

(** ** The trace monad and the error part *)

Lemma rbind_inr {A B} (r : result A) (f : A → result B) (b : B) :
  rbind r f = inr b → ∃ a, r = inr a ∧ f a = inr b.
Proof. destruct r as [e|a]; simpl; [discriminate | eauto]. Qed.

Lemma bind_inr {A B} (m : M A) (f : A → M B) (b : B) :
  snd (bind m f) = inr b → ∃ a, snd m = inr a ∧ snd (f a) = inr b.
Proof.
  destruct m as [tr [e|a]]; simpl; [discriminate |].
  destruct (f a) as [tr' r] eqn:Hf. simpl. intros ->. exists a. by rewrite Hf.
Qed.




Lemma lift_inr {A} (r : result A) (a : A) : snd (lift r) = inr a → r = inr a.
Proof. done. Qed.

Ltac invert_result :=
  repeat match goal with
  | H : rbind _ _ = inr _ |- _ =>
      let a := fresh "x" in let H1 := fresh "H" in
      apply rbind_inr in H as (a & H1 & H)
  | H : snd (bind _ _) = inr _ |- _ =>
      let a := fresh "x" in let H1 := fresh "H" in
      apply bind_inr in H as (a & H1 & H)
  | H : snd (lift _) = inr _ |- _ => apply lift_inr in H
  | H : inr _ = inr _ |- _ => injection H as H; try subst
  | H : (@inl _ _ _) = inr _ |- _ => discriminate H
  end.

(** ** Rows, columns and filters *)

Lemma at_insert_eq (r : row) c v : at_ (<[c := v]> r) c = v.
Proof. unfold at_. by rewrite lookup_insert_eq. Qed.

Lemma at_insert_ne (r : row) c c' v : c ≠ c' → at_ (<[c := v]> r) c' = at_ r c'.
Proof. intros. unfold at_. by rewrite lookup_insert_ne. Qed.

Lemma at_replace_row (r : row) c : at_ (replace_row r) c = replace_cell (at_ r c).
Proof.
  unfold at_, replace_row. rewrite lookup_fmap. by destruct (r !! c).
Qed.

Lemma at_restrict (cs : list string) (r : row) c :
  c ∈ cs → at_ (restrict cs r) c = at_ r c.
Proof.
  intros Hc. unfold at_, restrict.
  destruct (r !! c) as [v|] eqn:Hr.
  - by rewrite (proj2 (map_lookup_filter_Some _ r c v) (conj Hr Hc)).
  - by rewrite (proj2 (map_lookup_filter_None _ r c) (or_introl Hr)).
Qed.


Lemma filter_all {A} (p : A → bool) (l : list A) :
  (∀ x, x ∈ l → p x = true) → List.filter p l = l.
Proof.
  induction l as [|x l IH]; intros H; simpl; [done |].
  rewrite (H x) by left. f_equal. apply IH. intros y Hy. apply H. by right.
Qed.

Lemma filter_none {A} (p : A → bool) (l : list A) :
  List.filter p l = [] ↔ ∀ x, x ∈ l → p x = false.
Proof.
  induction l as [|x l IH]; simpl.
  - split; [intros _ y Hy; by apply elem_of_nil in Hy | done].
  - destruct (p x) eqn:Hx; split.
    + discriminate.
    + intros H. specialize (H x (list_elem_of_here _ _)). congruence.
    + intros H y Hy. apply elem_of_cons in Hy as [->|Hy]; [done |].
      by apply IH.
    + intros H. apply IH. intros y Hy. apply H. by right.
Qed.

Lemma filter_map {A B} (f : A → B) (p : B → bool) (l : list A) :
  List.filter p (f <$> l) = f <$> List.filter (λ x, p (f x)) l.
Proof.
  induction l as [|x l IH]; csimpl; [done |].
  rewrite IH. by destruct (p (f x)).
Qed.

Lemma rmapM_inr {A B} (f : A → result B) (l : list A) (ys : list B) :
  rmapM f l = inr ys → Forall2 (λ x y, f x = inr y) l ys.
Proof.
  revert ys. induction l as [|x l IH]; simpl; intros ys H.
  - injection H as <-. constructor.
  - invert_result. constructor; [done | by apply IH].
Qed.

Lemma rmapM_inr_each {A B} (f : A → result B) (l : list A) (ys : list B) :
  rmapM f l = inr ys → ∀ x, x ∈ l → ∃ y, f x = inr y.
Proof.
  revert ys. induction l as [|x l IH]; simpl; intros ys H z Hz.
  - by apply elem_of_nil in Hz.
  - invert_result. apply elem_of_cons in Hz as [->|Hz]; eauto.
Qed.

Lemma rmapM_total {A B} (f : A → result B) (l : list A) :
  (∀ x, x ∈ l → ∃ y, f x = inr y) → ∃ ys, rmapM f l = inr ys.
Proof.
  induction l as [|x l IH]; intros H; simpl; [eauto |].
  destruct (H x) as [y ->]; [left |]. simpl.
  destruct IH as [ys ->]; [intros z Hz; apply H; by right |]. simpl. eauto.
Qed.

Lemma require_col_inr (df : DataFrame) c u : require_col df c = inr u → c ∈ columns df.
Proof. unfold require_col. case_bool_decide; [done | discriminate]. Qed.

(** A comparison series, once it exists, is the cell-wise comparison, and
    no cell of the column is a string. *)
Lemma series_cmp_inr cmp c t df m :
  series_cmp cmp c t df = inr m →
  c ∈ columns df ∧ m = (λ r, cmp t (at_ r c)) ∧
  ∀ r, r ∈ rows df → ∀ s, at_ r c ≠ Str s.
Proof.
  unfold series_cmp, getitem. intros H. invert_result.
  split; [by eapply require_col_inr |]. split; [done |].
  intros r Hr s Hs.
  destruct (rmapM_inr_each _ _ _ H1 (at_ r c)) as [u Hu].
  - apply list_elem_of_fmap. eauto.
  - by rewrite Hs in Hu.
Qed.

(** ** The cleaning step of the Analyzer *)

Lemma filter_filter {A} (p q : A → bool) (l : list A) :
  List.filter q (List.filter p l) = List.filter (λ x, p x && q x) l.
Proof.
  induction l as [|x l IH]; simpl; [done |].
  destruct (p x); simpl; [destruct (q x) |]; by rewrite IH.
Qed.

Lemma Draft_clean_inr load out :
  Draft.clean load = inr out →
  columns out = columns load ∧
  rows out = replace_row <$> List.filter positive (rows load).
Proof.
  unfold Draft.clean, series_gt. intros H. invert_result.
  apply series_cmp_inr in H0 as (_ & -> & _).
  apply series_cmp_inr in H1 as (_ & -> & _).
  simpl. split; [done |]. by rewrite filter_filter.
Qed.

Lemma Final_clean_inr load out :
  Final.clean load = inr out →
  columns out = columns load ∧
  rows out = replace_row <$> List.filter positive (rows load).
Proof.
  unfold Final.clean, series_gt. intros H. invert_result.
  apply series_cmp_inr in H0 as (_ & -> & _).
  apply series_cmp_inr in H1 as (_ & -> & _).
  done.
Qed.

Lemma Draft_analyze_inr E c load out :
  snd (Draft.analyze_data E c load) = inr out → Draft.clean load = inr out.
Proof.
  unfold Draft.analyze_data. intros H. invert_result.
  unfold ret in H. simpl in H. by invert_result.
Qed.

Lemma Final_analyze_inr E c load out :
  snd (Final.analyze_data E c load) = inr out → Final.clean load = inr out.
Proof.
  unfold Final.analyze_data. intros H. invert_result.
  unfold ret in H. simpl in H. by invert_result.
Qed.

(** What either analyzer returns is the sentinel replacement of the rows of
    its input that pass the positivity test. *)
Lemma analyze_rows E c load out :
  snd (Draft.analyze_data E c load) = inr out ∨
  snd (Final.analyze_data E c load) = inr out →
  rows out = replace_row <$> List.filter positive (rows load).
Proof.
  intros [H|H].
  - by apply Draft_analyze_inr, Draft_clean_inr in H as [_ ?].
  - by apply Final_analyze_inr, Final_clean_inr in H as [_ ?].
Qed.

Lemma number_pos_not_sentinel (q : number) : 0 < q → q ≠ -1.
Proof. intros Hq ->. by vm_compute in Hq. Qed.

Lemma gt_cell_spec (v : cell) :
  gt_cell 0 v = true ↔ ∃ q, v = Num q ∧ 0 < q.
Proof.
  destruct v as [|q|s]; simpl.
  - split; [discriminate | by intros (? & ? & _)].
  - rewrite bool_decide_eq_true. split; [eauto | by intros (? & [= <-] & ?)].
  - split; [discriminate | by intros (? & ? & _)].
Qed.

Lemma replace_cell_pos (q : number) : 0 < q → replace_cell (Num q) = Num q.
Proof.
  intros Hq. simpl. rewrite bool_decide_eq_false_2; [done |].
  by apply number_pos_not_sentinel.
Qed.

Lemma replace_cell_idemp (v : cell) : replace_cell (replace_cell v) = replace_cell v.
Proof. destruct v as [|q|s]; simpl; [done | | done]. by case_bool_decide; simpl; [| rewrite bool_decide_eq_false_2]. Qed.

Lemma replace_row_idemp (r : row) : replace_row (replace_row r) = replace_row r.
Proof.
  unfold replace_row. rewrite <-map_fmap_compose. apply map_fmap_ext.
  intros ? v _. apply replace_cell_idemp.
Qed.

(** A row of a cleaned table comes from a row of the input whose calories and
    rating are positive numbers, untouched by the replacement. *)
Lemma cleaned_row_origin load out r :
  rows out = replace_row <$> List.filter positive (rows load) →
  r ∈ rows out →
  ∃ r0 cal rat, r0 ∈ rows load ∧ r = replace_row r0 ∧
    at_ r0 "calories" = Num cal ∧ 0 < cal ∧ at_ r "calories" = Num cal ∧
    at_ r0 "rating" = Num rat ∧ 0 < rat ∧ at_ r "rating" = Num rat.
Proof.
  intros H Hr. rewrite H in Hr.
  apply list_elem_of_fmap in Hr as (r0 & -> & Hr0).
  apply list_elem_of_In, filter_In in Hr0 as [Hr0 Hp].
  apply andb_prop in Hp as [Hc Hq].
  apply gt_cell_spec in Hc as (cal & Hc & ?), Hq as (rat & Hq & ?).
  exists r0, cal, rat. rewrite !at_replace_row, Hc, Hq, !replace_cell_pos by done.
  by rewrite list_elem_of_In.
Qed.

Lemma analyze_row_origin E c load out r :
  snd (Draft.analyze_data E c load) = inr out ∨
  snd (Final.analyze_data E c load) = inr out →
  r ∈ rows out →
  ∃ r0 cal rat, r0 ∈ rows load ∧ r = replace_row r0 ∧
    at_ r0 "calories" = Num cal ∧ 0 < cal ∧ at_ r "calories" = Num cal ∧
    at_ r0 "rating" = Num rat ∧ 0 < rat ∧ at_ r "rating" = Num rat.
Proof. intros H. apply cleaned_row_origin. by eapply analyze_rows. Qed.

Example sample_analyzed_len : len sample_loaded = 3%nat ∧ len sample_analyzed = 2%nat.
Proof. by vm_compute. Qed.

(** ** Claims about the cleaning step *)

(** C4. Every row of the Analyzer's output has calories > 0 and rating > 0,
    both strictly, in either variant. *)
Theorem analyzer_output_positive E c load out :
  snd (Draft.analyze_data E c load) = inr out ∨
  snd (Final.analyze_data E c load) = inr out →
  ∀ r, r ∈ rows out →
    ∃ cal rat, at_ r "calories" = Num cal ∧ 0 < cal ∧
               at_ r "rating" = Num rat ∧ 0 < rat.
Proof.
  intros H r Hr.
  destruct (analyze_row_origin _ _ _ _ _ H Hr)
    as (r0 & cal & rat & _ & _ & _ & ? & ? & _ & ? & ?).
  by exists cal, rat.
Qed.

Lemma analyzer_output_positive_witness :
  snd (Final.analyze_data sample_backend 85 sample_loaded) = inr sample_analyzed ∧
  ∀ r, r ∈ rows sample_analyzed →
    ∃ cal rat, at_ r "calories" = Num cal ∧ 0 < cal ∧
               at_ r "rating" = Num rat ∧ 0 < rat.
Proof.
  assert (H : snd (Final.analyze_data sample_backend 85 sample_loaded)
              = inr sample_analyzed) by (vm_compute; reflexivity).
  split; [exact H |].
  exact (analyzer_output_positive sample_backend 85 sample_loaded sample_analyzed
           (or_intror H)).
Defined.

(** C5. The table-wide replacement of -1 by the missing marker is
    idempotent. *)
Theorem replace_sentinel_idempotent (df : DataFrame) :
  replace_sentinel (replace_sentinel df) = replace_sentinel df.
Proof.
  unfold replace_sentinel. simpl. f_equal.
  rewrite <-list_fmap_compose. apply list_fmap_ext.
  intros ? r _. apply replace_row_idemp.
Qed.

(** C10. In the Analyzer's output the calories and rating cells are never the
    missing marker: each output row is the replacement of an input row whose
    calories and rating are not -1, and the replacement leaves these two
    cells as they were. *)
Theorem analyzer_output_not_missing E c load out :
  snd (Draft.analyze_data E c load) = inr out ∨
  snd (Final.analyze_data E c load) = inr out →
  ∀ r, r ∈ rows out →
    at_ r "calories" ≠ NA ∧ at_ r "rating" ≠ NA ∧
    ∃ r0, r0 ∈ rows load ∧ r = replace_row r0 ∧
          at_ r0 "calories" ≠ Num (-1) ∧ at_ r0 "rating" ≠ Num (-1) ∧
          at_ r "calories" = at_ r0 "calories" ∧
          at_ r "rating" = at_ r0 "rating".
Proof.
  intros H r Hr.
  destruct (analyze_row_origin _ _ _ _ _ H Hr)
    as (r0 & cal & rat & Hr0 & -> & Hc0 & Hc & Hc' & Hq0 & Hq & Hq').
  rewrite Hc', Hq'. split; [done |]. split; [done |].
  exists r0. rewrite Hc0, Hq0. repeat split; try done.
  - intros [= ->]. by vm_compute in Hc.
  - intros [= ->]. by vm_compute in Hq.
Qed.

Lemma analyzer_output_not_missing_witness :
  snd (Draft.analyze_data sample_backend 85 sample_loaded) = inr sample_analyzed ∧
  ∀ r, r ∈ rows sample_analyzed →
    at_ r "calories" ≠ NA ∧ at_ r "rating" ≠ NA ∧
    ∃ r0, r0 ∈ rows sample_loaded ∧ r = replace_row r0 ∧
          at_ r0 "calories" ≠ Num (-1) ∧ at_ r0 "rating" ≠ Num (-1) ∧
          at_ r "calories" = at_ r0 "calories" ∧
          at_ r "rating" = at_ r0 "rating".
Proof.
  assert (H : snd (Draft.analyze_data sample_backend 85 sample_loaded)
              = inr sample_analyzed) by (vm_compute; reflexivity).
  split; [exact H |].
  exact (analyzer_output_not_missing sample_backend 85 sample_loaded sample_analyzed
           (or_introl H)).
Defined.

(** ** The Loader *)

Lemma to_numeric_idemp parse v :
  to_numeric parse (to_numeric parse v) = to_numeric parse v.
Proof. destruct v as [|q|s]; simpl; [done.. |]. by destruct (parse s). Qed.


Lemma at_coerce_row parse cs r c :
  at_ (coerce_row parse cs r) c =
  if bool_decide (c ∈ cs) then to_numeric parse (at_ r c) else at_ r c.
Proof.
  revert r. induction cs as [|c0 cs IH]; intros r; simpl; [done |].
  rewrite IH. destruct (decide (c = c0)) as [->|Hne].
  - rewrite at_insert_eq, to_numeric_idemp.
    rewrite (bool_decide_eq_true_2 (c0 ∈ c0 :: cs)) by left.
    by case_bool_decide.
  - rewrite at_insert_ne by done.
    rewrite (bool_decide_ext (c ∈ c0 :: cs) (c ∈ cs)); [done |].
    rewrite elem_of_cons. intuition congruence.
Qed.

Lemma coerce_cols_inr parse cs df df' :
  coerce_cols parse cs df = inr df' →
  columns df' = columns df ∧ rows df' = coerce_row parse cs <$> rows df.
Proof.
  revert df. induction cs as [|c cs IH]; intros df; simpl.
  - intros [= <-]. split; [done |]. by rewrite list_fmap_id.
  - unfold coerce_col at 1. intros H. invert_result.
    apply require_col_inr in H1. apply IH in H as [-> ->].
    unfold setitem. simpl. rewrite bool_decide_eq_true_2 by done.
    split; [done |]. by rewrite <-list_fmap_compose.
Qed.

Lemma forallb_agree {A} (p q : A → bool) (l : list A) :
  (∀ x, x ∈ l → p x = q x) → forallb p l = forallb q l.
Proof.
  induction l as [|x l IH]; intros H; simpl; [done |].
  rewrite (H x) by left. f_equal. apply IH. intros y Hy. apply H. by right.
Qed.

Lemma complete_coerce_row parse cs r :
  complete_on cs (coerce_row parse cs r) = parses_all parse cs r.
Proof.
  unfold complete_on, parses_all. apply forallb_agree.
  intros c Hc. rewrite at_coerce_row. by rewrite bool_decide_eq_true_2.
Qed.

Lemma to_numeric_notna parse v :
  notna (to_numeric parse v) = true → ∃ q, to_numeric parse v = Num q.
Proof.
  destruct v as [|q|s]; simpl; [done | eauto |].
  destruct (parse s); simpl; [eauto | done].
Qed.

Lemma at_enrich (r : row) c :
  c ≠ "manufacturer_full" → c ≠ "type_full" → at_ (enrich r) c = at_ r c.
Proof. intros. unfold enrich. by rewrite !at_insert_ne. Qed.

Lemma loader_inr parse cs src out :
  loader parse cs src = inr out →
  rows out = (λ r, enrich (coerce_row parse cs r))
               <$> List.filter (parses_all parse cs) (rows src).
Proof.
  unfold loader, dropna_subset, map_col. intros H. invert_result.
  apply coerce_cols_inr in H0 as [_ Hrows]. simpl.
  rewrite Hrows, filter_map, <-!list_fmap_compose.
  rewrite (list_fmap_ext _ (λ r, enrich (coerce_row parse cs r))) by done.
  f_equal. clear. induction (rows src) as [|r l IH]; simpl; [done |].
  rewrite complete_coerce_row. destruct (parses_all parse cs r); by rewrite IH.
Qed.

Lemma loader_cells parse cs src out r c :
  loader parse cs src = inr out → r ∈ rows out → c ∈ cs →
  c ≠ "manufacturer_full" → c ≠ "type_full" → ∃ q, at_ r c = Num q.
Proof.
  intros H Hr Hc Hm Ht. rewrite (loader_inr _ _ _ _ H) in Hr.
  apply list_elem_of_fmap in Hr as (r0 & -> & Hr0).
  apply list_elem_of_In, filter_In in Hr0 as [_ Hp].
  rewrite at_enrich, at_coerce_row, bool_decide_eq_true_2 by done.
  apply to_numeric_notna. unfold parses_all in Hp.
  rewrite forallb_forall in Hp. apply Hp. by apply list_elem_of_In.
Qed.

Lemma Final_load_inr E out :
  snd (Final.load_data E) = inr out →
  ∃ src, get_df E "sample_csv" = inr src ∧
         loader (parse_float E) Final.numeric_cols src = inr out.
Proof.
  unfold Final.load_data. intros H. apply lift_inr in H.
  apply rbind_inr in H as (src & Hsrc & H). by exists src.
Qed.

Lemma Draft_load_inr E out :
  snd (Draft.load_data E) = inr out →
  out = empty_frame ∨
  ∃ src, get_df E "sample_csv" = inr src ∧
         loader (parse_float E) ["carbo"; "sugars"; "potass"] src = inr out.
Proof.
  unfold Draft.load_data, try_except, lift.
  destruct (Draft.load_body E) as [e|df] eqn:Hb; simpl.
  - intros [= <-]. by left.
  - intros [= <-]. right. unfold Draft.load_body in Hb.
    apply rbind_inr in Hb as (src & Hsrc & Hb). exists src. split; [done |].
    unfold loader. simpl.
    destruct (coerce_col _ "carbo" src) as [|d1]; [done |]. simpl in *.
    destruct (coerce_col _ "sugars" d1) as [|d2]; [done |]. simpl in *.
    by destruct (coerce_col _ "potass" d2) as [|d3].
Qed.

Lemma numeric_cols_not_derived c :
  c ∈ Final.numeric_cols → c ≠ "manufacturer_full" ∧ c ≠ "type_full".
Proof.
  intros Hc. split; intros ->; revert Hc;
    by apply (bool_decide_unpack (_ ∉ Final.numeric_cols)).
Qed.

(** ** Claims about the Loader *)

(** C1, as the code has it.  In the final variant the rows that leave the
    Loader are exactly the source rows whose thirteen listed cells are all
    present and parse, in the order of the source, each with those cells
    coerced and the two derived columns added; every such row holds a number
    in each of the thirteen columns.  The number need not be finite: a cell
    that parses to an infinity is present and survives.  The draft variant
    coerces and checks only carbo, sugars and potass, and the same holds of
    it for those three columns. *)
Theorem loader_numeric_columns (E : Backend) :
  (∀ out, snd (Final.load_data E) = inr out →
     ∃ src, get_df E "sample_csv" = inr src ∧
       rows out = (λ r, enrich (coerce_row (parse_float E) Final.numeric_cols r))
                    <$> List.filter (parses_all (parse_float E) Final.numeric_cols)
                                    (rows src) ∧
       (∀ r c, r ∈ rows out → c ∈ Final.numeric_cols → ∃ q, at_ r c = Num q) ∧
       len out = length (List.filter (parses_all (parse_float E) Final.numeric_cols)
                                     (rows src))) ∧
  (∀ out, snd (Draft.load_data E) = inr out →
     (out = empty_frame ∨
      ∃ src, get_df E "sample_csv" = inr src ∧
        rows out = (λ r, enrich (coerce_row (parse_float E)
                                   ["carbo"; "sugars"; "potass"] r))
                     <$> List.filter (parses_all (parse_float E)
                                        ["carbo"; "sugars"; "potass"])
                                     (rows src)) ∧
     ∀ r c, r ∈ rows out → c ∈ ["carbo"; "sugars"; "potass"] →
            ∃ q, at_ r c = Num q).
Proof.
  split.
  - intros out H. apply Final_load_inr in H as (src & Hsrc & H).
    exists src. split; [done |]. split; [by apply loader_inr |]. split.
    + intros r c Hr Hc. destruct (numeric_cols_not_derived c Hc).
      by eapply loader_cells.
    + unfold len. by rewrite (loader_inr _ _ _ _ H), length_fmap.
  - intros out H. apply Draft_load_inr in H as [->|(src & Hsrc & H)].
    + split; [by left |]. intros r c Hr. by apply elem_of_nil in Hr.
    + split; [right; exists src; split; [done | by apply loader_inr] |].
      intros r c Hr Hc. eapply loader_cells; [done.. | |];
        intros ->; revert Hc; by apply (bool_decide_unpack (_ ∉ _)).
Qed.

Lemma loader_numeric_columns_witness :
  snd (Final.load_data sample_backend) = inr sample_loaded ∧
  ∃ src, get_df sample_backend "sample_csv" = inr src ∧
    rows sample_loaded
      = (λ r, enrich (coerce_row (parse_float sample_backend) Final.numeric_cols r))
          <$> List.filter (parses_all (parse_float sample_backend) Final.numeric_cols)
                          (rows src) ∧
    (∀ r c, r ∈ rows sample_loaded → c ∈ Final.numeric_cols →
            ∃ q, at_ r c = Num q) ∧
    len sample_loaded =
      length (List.filter (parses_all (parse_float sample_backend) Final.numeric_cols)
                          (rows src)).
Proof.
  assert (H : snd (Final.load_data sample_backend) = inr sample_loaded)
    by (vm_compute; reflexivity).
  split; [exact H |].
  exact (proj1 (loader_numeric_columns sample_backend) sample_loaded H).
Defined.

(** C1 fails twice.  On the draft variant a row without a calories value
    passes the Loader, because calories is not among the columns it checks.
    On the final variant a row whose calories cell reads "inf" passes the
    Loader with an infinite calories value: the cell parses, so it is not
    missing, and it is not finite. *)
Lemma loader_keeps_missing_or_infinite :
  (∃ out r, snd (Draft.load_data (stub no_calories None [] [])) = inr out ∧
            r ∈ rows out ∧ at_ r "calories" = NA) ∧
  (∃ out r,
     snd (Final.load_data (reads_inf (stub infinite_calories None [] []))) = inr out ∧
     r ∈ rows out ∧ at_ r "calories" = Num PosInf).
Proof.
  split.
  - eexists _, (enrich (cereal "Mystery" "K" "C" NA (num 3) (num 60))).
    split; [vm_compute; reflexivity |].
    split; [apply (bool_decide_unpack _); by vm_compute | by vm_compute].
  - eexists _, (enrich (coerce_row
                  (parse_float (reads_inf (stub infinite_calories None [] [])))
                  Final.numeric_cols
                  (cereal "Endless" "K" "C" (Str "inf") (num 3) (num 60)))).
    split; [vm_compute; reflexivity |].
    split; [apply (bool_decide_unpack _); by vm_compute | by vm_compute].
Qed.

(** ** The threshold filter *)

Lemma require_cols_inr df cs u :
  require_cols df cs = inr u → ∀ c, c ∈ cs → c ∈ columns df.
Proof.
  induction cs as [|c0 cs IH]; simpl; intros H c Hc.
  - by apply elem_of_nil in Hc.
  - invert_result. apply elem_of_cons in Hc as [->|Hc]; [| by apply IH].
    by eapply require_col_inr.
Qed.

Lemma Final_filtered_inr df c v :
  Final.filtered df c = inr v →
  columns v = view_cols ∧
  rows v = restrict view_cols
             <$> List.filter (λ r, ge_cell (Qc_of_Z c) (at_ r "rating")) (rows df).
Proof.
  unfold Final.filtered, series_ge, project. intros H. invert_result.
  by apply series_cmp_inr in H0 as (_ & -> & _).
Qed.

Lemma ge_cell_spec t (v : cell) : ge_cell t v = true ↔ ∃ q, v = Num q ∧ t ≤ q.
Proof.
  destruct v as [|q|s]; simpl.
  - split; [discriminate | by intros (? & ? & _)].
  - rewrite bool_decide_eq_true. split; [eauto | by intros (? & [= <-] & ?)].
  - split; [discriminate | by intros (? & ? & _)].
Qed.

Lemma series_cmp_total cmp c t df :
  c ∈ columns df → (∀ r, r ∈ rows df → ∀ s, at_ r c ≠ Str s) →
  series_cmp cmp c t df = inr (λ r, cmp t (at_ r c)).
Proof.
  intros Hc Hs. unfold series_cmp, getitem, require_col.
  rewrite bool_decide_eq_true_2 by done. simpl.
  destruct (rmapM_total comparable ((λ r, at_ r c) <$> rows df)) as [us ->]; [| done].
  intros v Hv. apply list_elem_of_fmap in Hv as (r & -> & Hr).
  specialize (Hs r Hr). destruct (at_ r c); simpl; eauto. by destruct (Hs s).
Qed.

Lemma Final_clean_rating_col load df :
  Final.clean load = inr df → "rating" ∈ columns df.
Proof.
  intros H. destruct (Final_clean_inr _ _ H) as [-> _].
  unfold Final.clean in H. invert_result.
  by apply series_cmp_inr in H1 as (? & _).
Qed.

(** ** Claims about the threshold filter *)

(** C2, as the code has it.  In the final variant the view holds exactly the
    rows of the analyzed table with rating >= threshold, projected to name,
    manufacturer_full and rating, in the order of the table (no sort).  The
    draft variant hands the text of an ordered query over the source dataset
    to the query executor and shows what comes back. *)
Theorem threshold_view df c v :
  Final.filtered df c = inr v →
  columns v = ["name"; "manufacturer_full"; "rating"] ∧
  rows v = restrict view_cols
             <$> List.filter (λ r, ge_cell (Qc_of_Z c) (at_ r "rating")) (rows df) ∧
  (∀ r', r' ∈ rows v ↔
         ∃ r q, r ∈ rows df ∧ r' = restrict view_cols r ∧
                at_ r "rating" = Num q ∧ Qc_of_Z c ≤ q ∧ at_ r' "rating" = Num q) ∧
  (∀ E top,
     query E ("SELECT name, manufacturer_full, rating FROM sample_csv WHERE rating >= "
              +:+ pretty c +:+ " ORDER BY rating DESC") "sample_csv" = inr (Some top) →
     Draft.top_rated E c = inr top).
Proof.
  intros H. apply Final_filtered_inr in H as [Hc Hr].
  split; [done |]. split; [done |]. split.
  - intros r'. rewrite Hr, list_elem_of_fmap. split.
    + intros (r & -> & Hin). apply list_elem_of_In, filter_In in Hin as [Hin Hge].
      apply ge_cell_spec in Hge as (q & Hq & Hle). exists r, q.
      rewrite at_restrict by (apply (bool_decide_unpack _); by vm_compute).
      by rewrite list_elem_of_In.
    + intros (r & q & Hin & -> & Hq & Hle & _). exists r. split; [done |].
      apply list_elem_of_In, filter_In. split; [by apply list_elem_of_In |].
      apply ge_cell_spec. eauto.
  - intros E top Hq. unfold Draft.top_rated.
    change (Draft.query_text c) with
      ("SELECT name, manufacturer_full, rating FROM sample_csv WHERE rating >= "
       +:+ pretty c +:+ " ORDER BY rating DESC").
    by rewrite Hq.
Qed.

Lemma threshold_view_witness :
  Final.filtered sample_analyzed 85 = inr sample_view ∧
  columns sample_view = ["name"; "manufacturer_full"; "rating"] ∧
  ratings sample_view = [Num (Q2Qc (187 # 2))].
Proof.
  assert (H : Final.filtered sample_analyzed 85 = inr sample_view)
    by (vm_compute; reflexivity).
  split; [exact H |].
  destruct (threshold_view sample_analyzed 85 sample_view H) as (Hc & Hr & _).
  split; [exact Hc |]. unfold ratings. rewrite Hr. by vm_compute.
Defined.

(** C2 fails on the final variant: the view keeps the order of the table, so
    ascending ratings stay ascending. *)
Lemma final_view_not_sorted :
  ∃ v, Final.filtered (analyzed_final ascending) 0 = inr v ∧
       ratings v = [num 50; num 90] ∧ Qc_of_Z 50 < Qc_of_Z 90.
Proof.
  eexists. split; [vm_compute; reflexivity |]. split; by vm_compute.
Qed.

(** C3, as the code has it.  On a table cleaned by the final Analyzer the
    view at threshold 0 is the projection of the whole table; at threshold
    101 it is empty exactly when no rating reaches 101. *)
Theorem threshold_boundaries load df :
  Final.clean load = inr df →
  Final.filtered df 0 = project view_cols df ∧
  ∀ v, Final.filtered df 101 = inr v →
       (rows v = [] ↔
        ∀ r q, r ∈ rows df → at_ r "rating" = Num q → q < Qc_of_Z 101).
Proof.
  intros H. pose proof (Final_clean_rating_col _ _ H) as Hcol.
  apply Final_clean_inr in H as [_ Hrows].
  assert (Hrat : ∀ r, r ∈ rows df → ∃ q, at_ r "rating" = Num q ∧ 0 < q).
  { intros r Hr.
    destruct (cleaned_row_origin _ _ _ Hrows Hr)
      as (_ & _ & rat & _ & _ & _ & _ & _ & _ & ? & ?). eauto. }
  split.
  - unfold Final.filtered, series_ge. rewrite series_cmp_total; [simpl | done |].
    + f_equal. unfold loc. destruct df as [cs rs]. simpl in *. f_equal.
      apply filter_all. intros r Hr. destruct (Hrat r Hr) as (q & -> & Hq).
      simpl. apply bool_decide_eq_true_2. rewrite Z2Qc_inj_0.
      by apply number_lt_le.
    + intros r Hr s Hs. destruct (Hrat r Hr) as (q & Hq & _). congruence.
  - intros v Hv. apply Final_filtered_inr in Hv as [_ ->].
    transitivity
      (List.filter (λ r, ge_cell (Qc_of_Z 101) (at_ r "rating")) (rows df) = []);
      [split; [apply fmap_nil_inv | by intros ->] |].
    rewrite filter_none. split.
    + intros Hn r q Hr Hq. specialize (Hn r Hr). rewrite Hq in Hn. simpl in Hn.
      apply bool_decide_eq_false_1 in Hn. by apply number_not_le_lt.
    + intros Hn r Hr. destruct (Hrat r Hr) as (q & Hq & _). rewrite Hq. simpl.
      apply bool_decide_eq_false_2. apply number_lt_not_le. by eapply Hn.
Qed.

Lemma threshold_boundaries_witness :
  Final.clean sample_loaded = inr sample_analyzed ∧
  Final.filtered sample_analyzed 0 = project view_cols sample_analyzed ∧
  ∀ v, Final.filtered sample_analyzed 101 = inr v →
       (rows v = [] ↔
        ∀ r q, r ∈ rows sample_analyzed → at_ r "rating" = Num q → q < Qc_of_Z 101).
Proof.
  assert (H : Final.clean sample_loaded = inr sample_analyzed)
    by (vm_compute; reflexivity).
  split; [exact H |].
  exact (threshold_boundaries sample_loaded sample_analyzed H).
Defined.

(** C3 fails at threshold 101: a cereal rated 150 passes the Loader and the
    Analyzer and appears in the view. *)
Lemma final_view_at_101_not_empty :
  ∃ v, Final.filtered (analyzed_final overrated) 101 = inr v ∧
       len v = 1%nat ∧ ratings v = [num 150].
Proof.
  eexists. split; [vm_compute; reflexivity |]. split; by vm_compute.
Qed.

(** ** Claims about the alerts of the threshold filter *)




(** ** Counting missing cells *)

Lemma at_singleton c (v : cell) : at_ {[c := v]} c = v.
Proof. unfold at_. by rewrite lookup_singleton_eq. Qed.

Lemma sum_list_zero (l : list nat) : sum_list l = 0%nat ↔ ∀ n, n ∈ l → n = 0%nat.
Proof.
  induction l as [|m l IH]; simpl.
  - split; [intros _ n Hn; by apply elem_of_nil in Hn | done].
  - split.
    + intros H n [->|Hn]%elem_of_cons; [lia |]. apply IH; [lia | done].
    + intros H. rewrite (H m) by left. simpl. apply IH. intros n Hn.
      apply H. by right.
Qed.

Lemma missing_count_zero df c :
  missing_count df c = 0%nat ↔ ∀ r, r ∈ rows df → at_ r c ≠ NA.
Proof.
  unfold missing_count. rewrite length_zero_iff_nil, filter_none.
  split; intros H r Hr; specialize (H r Hr); by destruct (at_ r c).
Qed.

Lemma isnull_total_zero df :
  sum_list (snd <$> isnull_sum df) = 0%nat ↔ no_missing df.
Proof.
  rewrite sum_list_zero. unfold isnull_sum, no_missing.
  rewrite <-list_fmap_compose. split.
  - intros H c r Hc. apply missing_count_zero, H, list_elem_of_fmap. eauto.
  - intros H n (c & -> & Hc)%list_elem_of_fmap. simpl.
    apply missing_count_zero. intros r Hr. by apply H.
Qed.

(** ** Claims about failures inside the Analyzer *)



Lemma table_raises E df title e :
  render_table E df title = inl e → table E df title = ([], inl e).
Proof. intros H. unfold table. by rewrite H. Qed.



















(** ** Value counts *)

Global Instance by_count_desc_total : Total by_count_desc.
Proof. intros a b. unfold by_count_desc. lia. Qed.

Global Instance by_count_desc_trans : Transitive by_count_desc.
Proof. intros a b c. unfold by_count_desc. lia. Qed.

Lemma elem_of_unique (v : cell) l : v ∈ unique l ↔ v ∈ l.
Proof. unfold unique. by rewrite elem_of_reverse, elem_of_remove_dups, elem_of_reverse. Qed.


(** The counts come most frequent first ... *)
Lemma value_counts_sorted l : StronglySorted by_count_desc (value_counts l).
Proof. apply StronglySorted_merge_sort; apply _. Qed.

(** ... and pair every value present in the column with its frequency. *)
Lemma elem_of_value_counts l v n :
  (v, n) ∈ value_counts l ↔ v ≠ NA ∧ v ∈ l ∧ n = count v l.
Proof.
  unfold value_counts. rewrite merge_sort_Permutation, list_elem_of_fmap.
  assert (Hc : ∀ w, w ≠ NA → count w (List.filter notna l) = count w l).
  { intros w Hw. unfold count. rewrite filter_filter. f_equal.
    clear -Hw. induction l as [|x l IH]; simpl; [done |].
    rewrite IH. destruct x; simpl; try done.
    by rewrite bool_decide_eq_false_2 by done. }
  assert (Hin : ∀ w, w ∈ List.filter notna l ↔ w ≠ NA ∧ w ∈ l).
  { intros w. rewrite !list_elem_of_In, filter_In. unfold notna.
    destruct w; simpl; intuition congruence. }
  split.
  - intros (w & [= -> ->] & Hw). apply elem_of_unique, Hin in Hw as [? ?].
    by rewrite Hc.
  - intros (Hv & Hl & ->). exists v. rewrite Hc by done. split; [done |].
    by apply elem_of_unique, Hin.
Qed.

Lemma bind_events {A B} (m : M A) (f : A → M B) ev :
  ev ∈ fst (bind m f) → ev ∈ fst m ∨ ∃ a, snd m = inr a ∧ ev ∈ fst (f a).
Proof.
  destruct m as [tr [e|a]]; simpl; [by left |].
  destruct (f a) as [tr' r] eqn:Hf. simpl. intros [?|?]%elem_of_app; [by left |].
  right. exists a. by rewrite Hf.
Qed.

Lemma for_each_events {A} (l : list A) (body : A → M unit) ev :
  ev ∈ fst (for_each l body) → ∃ x, x ∈ l ∧ ev ∈ fst (body x).
Proof.
  induction l as [|x l IH]; simpl; [by intros ?%elem_of_nil |].
  intros [H|(_ & _ & H)]%bind_events.
  - exists x. split; [left | done].
  - destruct (IH H) as (y & ? & ?). exists y. split; [by right | done].
Qed.

(** Every table the final variant renders in the value-counts step is the
    first ten rows of the counts of one of the object columns. *)
Lemma Final_tables_top10 E df t title :
  EvTable t title ∈ fst (Final.value_counts_tables E df) →
  ∃ col counts, col ∈ object_columns E df ∧
    value_counts_frame col df = inr counts ∧ t = head 10 counts ∧
    title = "Top 10 '" +:+ col +:+ "' Values" ∧ (len t ≤ 10)%nat.
Proof.
  unfold Final.value_counts_tables.
  intros [H|(_ & _ & H)]%bind_events.
  { simpl in H. apply list_elem_of_singleton in H. discriminate. }
  apply for_each_events in H as (col & Hcol & H).
  apply bind_events in H as [H|(counts & Hc & H)].
  { simpl in H. by apply elem_of_nil in H. }
  apply lift_inr in Hc. unfold table in H.
  apply bind_events in H as [H|(_ & _ & H)].
  { simpl in H. by apply elem_of_nil in H. }
  simpl in H. apply list_elem_of_singleton in H. injection H as -> ->.
  exists col, counts. repeat split; try done.
  unfold len, head. simpl. rewrite length_take. lia.
Qed.

(** C6 on the draft variant: for eleven distinct names the table titled
    "Top 10 'name' Values" has eleven rows, because the counts are rendered
    without truncation. *)
Theorem draft_top10_not_truncated :
  fst (Draft.value_counts_tables (stub eleven None [] ["name"]) (analyzed_draft eleven)) =
    [EvText "## Cereal Category Value Counts";
     EvTable eleven_counts "Top 10 'name' Values"] ∧
  len eleven_counts = 11%nat ∧
  fst (Final.value_counts_tables (stub eleven None [] ["name"]) (analyzed_draft eleven)) =
    [EvText "## The Cereal Dichotomy: Hot vs. Cold Value Counts";
     EvTable (head 10 eleven_counts) "Top 10 'name' Values"] ∧
  len (head 10 eleven_counts) = 10%nat.
Proof. repeat split; by vm_compute. Qed.

(** ** Grouped means *)

Lemma at_fmap (f : cell → cell) (r : row) c : f NA = NA → at_ (f <$> r) c = f (at_ r c).
Proof. intros Hf. unfold at_. rewrite lookup_fmap. by destruct (r !! c). Qed.

Lemma elem_of_group_keys key df k :
  k ∈ group_keys key df ↔ k ≠ NA ∧ ∃ r, r ∈ rows df ∧ at_ r key = k.
Proof.
  unfold group_keys. rewrite merge_sort_Permutation, elem_of_unique.
  rewrite list_elem_of_In, filter_In, <-list_elem_of_In, list_elem_of_fmap.
  unfold notna. split.
  - intros [(r & -> & Hr) Hk]. split; [by destruct (at_ r key) | eauto].
  - intros [Hk (r & Hr & <-)]. split; [eauto | by destruct (at_ r key)].
Qed.




Lemma group_mean_row_dom key df k p i v :
  group_mean_row key mean_cols df k = inr p → p.2 !! i = Some v → i ∈ mean_cols.
Proof.
  unfold group_mean_row, mean_cols. simpl. intros H. invert_result. simpl.
  intros Hi.
  destruct (decide (i = "calories")) as [->|?]; [set_solver |].
  rewrite lookup_insert_ne in Hi by done.
  destruct (decide (i = "protein")) as [->|?]; [set_solver |].
  rewrite lookup_insert_ne in Hi by done.
  destruct (decide (i = "fat")) as [->|?]; [set_solver |].
  rewrite lookup_insert_ne in Hi by done. by rewrite lookup_empty in Hi.
Qed.

Lemma groupby_mean_dom key df g p i v :
  groupby_mean key mean_cols df = inr g → p ∈ g → p.2 !! i = Some v → i ∈ mean_cols.
Proof.
  unfold groupby_mean. intros H. invert_result. apply rmapM_inr in H.
  induction H as [|k q ks g Hkq _ IH]; [by intros ?%elem_of_nil |].
  intros [->|Hp]%elem_of_cons; [by eapply group_mean_row_dom | by apply IH].
Qed.




Lemma elem_of_float_cols df cs c :
  c ∈ float_cols df cs ↔ c ∈ cs ∧ float_dtype df c = true.
Proof. unfold float_cols. by rewrite !list_elem_of_In, filter_In. Qed.



(** ** Claims about the grouped aggregation *)




(** * Further properties of the pipeline *)

(** ** The derived columns *)

Lemma map_cell_notna (d : gmap string string) (v : cell) :
  map_cell d v ≠ NA ↔ ∃ s, v = Str s ∧ is_Some (d !! s).
Proof.
  destruct v as [|q|s]; simpl.
  - split; [done | by intros (? & ? & _)].
  - split; [done | by intros (? & ? & _)].
  - destruct (d !! s) as [t|] eqn:Hd.
    + split; [intros _; exists s; by rewrite Hd | done].
    + split; [done |]. intros (s' & [= <-] & Hs). rewrite Hd in Hs.
      by destruct Hs.
Qed.

Lemma mfr_map_keys s : is_Some (mfr_map !! s) ↔ s ∈ mfr_codes.
Proof.
  split.
  - intros [t Ht]. apply elem_of_list_to_map_2 in Ht.
    repeat (apply elem_of_cons in Ht as [[= -> _]|Ht];
            [apply (bool_decide_unpack _); by vm_compute |]).
    by apply elem_of_nil in Ht.
  - intros Hs. unfold mfr_codes in Hs.
    repeat (apply elem_of_cons in Hs as [->|Hs]; [by eexists |]).
    by apply elem_of_nil in Hs.
Qed.

Lemma type_map_keys s : is_Some (type_map !! s) ↔ s ∈ type_codes.
Proof.
  split.
  - intros [t Ht]. apply elem_of_list_to_map_2 in Ht.
    repeat (apply elem_of_cons in Ht as [[= -> _]|Ht];
            [apply (bool_decide_unpack _); by vm_compute |]).
    by apply elem_of_nil in Ht.
  - intros Hs. unfold type_codes in Hs.
    repeat (apply elem_of_cons in Hs as [->|Hs]; [by eexists |]).
    by apply elem_of_nil in Hs.
Qed.

Lemma load_rows_enriched E out r :
  snd (Draft.load_data E) = inr out ∨ snd (Final.load_data E) = inr out →
  r ∈ rows out → ∃ r0, r = enrich r0.
Proof.
  intros [H|H] Hr.
  - apply Draft_load_inr in H as [->|(src & _ & H)];
      [by apply elem_of_nil in Hr |].
    rewrite (loader_inr _ _ _ _ H) in Hr.
    apply list_elem_of_fmap in Hr as (r0 & -> & _). eauto.
  - apply Final_load_inr in H as (src & _ & H).
    rewrite (loader_inr _ _ _ _ H) in Hr.
    apply list_elem_of_fmap in Hr as (r0 & -> & _). eauto.
Qed.

(** X1. In every row that leaves the Loader of either variant,
    manufacturer_full is the lookup of mfr in the seven-entry table and is
    present exactly when mfr is one of A, G, K, N, P, Q, R; type_full is the
    lookup of type and is present exactly when type is C or H.  An unknown
    code gives a missing value, not an error. *)
Theorem derived_columns E out r :
  snd (Draft.load_data E) = inr out ∨ snd (Final.load_data E) = inr out →
  r ∈ rows out →
  at_ r "manufacturer_full" = map_cell mfr_map (at_ r "mfr") ∧
  at_ r "type_full" = map_cell type_map (at_ r "type") ∧
  (at_ r "manufacturer_full" ≠ NA ↔ ∃ s, at_ r "mfr" = Str s ∧ s ∈ mfr_codes) ∧
  (at_ r "type_full" ≠ NA ↔ ∃ s, at_ r "type" = Str s ∧ s ∈ type_codes).
Proof.
  intros H Hr. destruct (load_rows_enriched _ _ _ H Hr) as [r0 ->].
  assert (Hm : at_ (enrich r0) "manufacturer_full" = map_cell mfr_map (at_ (enrich r0) "mfr")).
  { unfold enrich. by rewrite at_insert_ne, at_insert_eq, !at_insert_ne. }
  assert (Ht : at_ (enrich r0) "type_full" = map_cell type_map (at_ (enrich r0) "type")).
  { unfold enrich. by rewrite at_insert_eq, !at_insert_ne. }
  split; [done |]. split; [done |]. rewrite Hm, Ht, !map_cell_notna.
  split; (split; intros (s & ? & Hs); exists s; (split; [done |])).
  - by apply mfr_map_keys.
  - by apply mfr_map_keys.
  - by apply type_map_keys.
  - by apply type_map_keys.
Qed.

Lemma derived_columns_witness :
  snd (Final.load_data sample_backend) = inr sample_loaded ∧
  enrich (cereal "Maypo" "A" "H" (num 100) (num 4) (num 55)) ∈ rows sample_loaded ∧
  at_ (enrich (cereal "Maypo" "A" "H" (num 100) (num 4) (num 55))) "manufacturer_full"
    = map_cell mfr_map (at_ (enrich (cereal "Maypo" "A" "H" (num 100) (num 4) (num 55))) "mfr").
Proof.
  assert (H : snd (Final.load_data sample_backend) = inr sample_loaded)
    by (vm_compute; reflexivity).
  assert (Hr : enrich (cereal "Maypo" "A" "H" (num 100) (num 4) (num 55))
               ∈ rows sample_loaded)
    by (apply (bool_decide_unpack _); by vm_compute).
  split; [exact H |]. split; [exact Hr |].
  exact (proj1 (derived_columns sample_backend sample_loaded _ (or_intror H) Hr)).
Defined.

(** ** Failures of the Loader *)

Lemma Draft_load_unavailable E e :
  get_df E "sample_csv" = inl e →
  Draft.load_data E =
    ([EvAlert ("Error loading data: " +:+ str_exn e) error], inr empty_frame).
Proof.
  intros He. unfold Draft.load_data, Draft.load_body. by rewrite He.
Qed.

(** X3. An exception from [connect()] escapes the Loader of both variants:
    in the draft variant the call stands before the [try].  Once [connect()]
    has returned, the draft Loader never raises: when the dataset cannot be
    acquired it emits one error alert carrying the exception text and returns
    the empty table.  The final Loader has no handler and raises that
    exception. *)
Theorem loader_failure E :
  (∀ e, Draft.load_atom E (inl e) = ([], inl e) ∧
        Final.load_atom E (inl e) = ([], inl e)) ∧
  (∃ df, snd (Draft.load_atom E (inr tt)) = inr df) ∧
  ∀ e, get_df E "sample_csv" = inl e →
    Draft.load_atom E (inr tt) =
      ([EvAlert ("Error loading data: " +:+ str_exn e) error], inr empty_frame) ∧
    Final.load_atom E (inr tt) = ([], inl e).
Proof.
  split; [done |]. split.
  - unfold Draft.load_atom, Draft.load_data, try_except, lift.
    destruct (Draft.load_body E); simpl; eauto.
  - intros e He. split.
    + unfold Draft.load_atom. by rewrite (Draft_load_unavailable E e He).
    + unfold Final.load_atom, Final.load_data. by rewrite He.
Qed.

Lemma loader_failure_witness :
  get_df offline "sample_csv" = inl (ExternalError "connection refused") ∧
  Draft.load_atom offline (inr tt) =
    ([EvAlert ("Error loading data: " +:+ "connection refused") error], inr empty_frame) ∧
  Final.load_atom offline (inr tt) = ([], inl (ExternalError "connection refused")).
Proof.
  assert (H : get_df offline "sample_csv" = inl (ExternalError "connection refused"))
    by reflexivity.
  split; [exact H |].
  exact (proj2 (proj2 (loader_failure offline)) _ H).
Defined.

(** ** Missing columns in the Analyzer *)

(** X4. A table without a calories column makes the Analyzer of either
    variant raise KeyError('calories') before anything is shown.  This is
    what happens to the empty table the draft Loader falls back to. *)
Theorem analyzer_missing_calories E c df :
  "calories" ∉ columns df →
  Draft.analyze_data E c df = ([], inl (KeyError "calories")) ∧
  Final.analyze_data E c df = ([], inl (KeyError "calories")) ∧
  (df = empty_frame → ∀ e, get_df E "sample_csv" = inl e →
     bind (Draft.load_data E) (Draft.analyze_data E c) =
       ([EvAlert ("Error loading data: " +:+ str_exn e) error],
        inl (KeyError "calories"))).
Proof.
  intros Hc.
  assert (Hd : Draft.analyze_data E c df = ([], inl (KeyError "calories"))).
  { unfold Draft.analyze_data, Draft.clean, series_gt, series_cmp, getitem, require_col.
    by rewrite bool_decide_eq_false_2. }
  split; [done |]. split.
  - unfold Final.analyze_data, Final.clean, series_gt, series_cmp, getitem, require_col.
    by rewrite bool_decide_eq_false_2.
  - intros -> e He. rewrite (Draft_load_unavailable E e He).
    unfold bind. by rewrite Hd.
Qed.

Lemma analyzer_missing_calories_witness :
("calories" ∉ columns empty_frame) ∧
  Draft.analyze_data offline 40 empty_frame = ([], inl (KeyError "calories")).
Proof.
  assert (H : "calories" ∉ columns empty_frame) by (simpl; apply not_elem_of_nil).
  split; [exact H |].
  exact (proj1 (analyzer_missing_calories offline 40 empty_frame H)).
Defined.

(** ** The missing-value summary *)

(** X2. The missing-value step shows the "none" text exactly when no cell of
    the table is missing, in both variants.  Otherwise it hands the sink a
    table with one row per column that has a missing cell, carrying the
    column's name and its count of missing cells; columns with no missing
    cell are left out. *)
Theorem missing_summary E df :
  (no_missing df ↔
     Final.missing_values E df =
       ([EvText "## Full Transparency: Missing Value Counts";
         EvText "No missing values detected."], inr tt)) ∧
  (no_missing df ↔
     Draft.missing_values E df =
       ([EvText "## Missing Value Counts";
         EvText "## Missing Values Count: None"], inr tt)) ∧
  (¬ no_missing df →
     Final.missing_values E df =
       (text "## Full Transparency: Missing Value Counts" ;;;
        table E (missing_frame (isnull_sum df)) "Missing Values Summary") ∧
     Draft.missing_values E df =
       (text "## Missing Value Counts" ;;;
        table E (missing_frame (isnull_sum df)) "Missing Values Summary")) ∧
  (∀ r, r ∈ rows (missing_frame (isnull_sum df)) →
     ∃ c, c ∈ columns df ∧ at_ r "Column" = Str c ∧
          at_ r "Missing Count" = nat_cell (missing_count df c) ∧
          (0 < missing_count df c)%nat) ∧
  (∀ c, c ∈ columns df → (0 < missing_count df c)%nat →
     ∃ r, r ∈ rows (missing_frame (isnull_sum df)) ∧ at_ r "Column" = Str c).
Proof.
  pose proof (isnull_total_zero df) as Hz.
  assert (Hcase : no_missing df ∨ (0 < sum_list (snd <$> isnull_sum df))%nat).
  { destruct (decide (sum_list (snd <$> isnull_sum df) = 0%nat)) as [H0|H0];
      [left; by apply Hz | right; lia]. }
  split; [| split; [| split; [| split]]].
  - unfold Final.missing_values. split.
    + intros H. apply Hz in H. rewrite H. by simpl.
    + destruct Hcase as [?|Hpos]; [done |].
      rewrite bool_decide_eq_true_2 by done. unfold table.
      destruct (render_table E _ _); simpl; discriminate.
  - unfold Draft.missing_values. split.
    + intros H. apply Hz in H. rewrite H. by simpl.
    + destruct Hcase as [?|Hpos]; [done |].
      rewrite bool_decide_eq_true_2 by done. unfold table.
      destruct (render_table E _ _); simpl; discriminate.
  - intros Hn. destruct Hcase as [?|Hpos]; [done |].
    unfold Final.missing_values, Draft.missing_values.
    by rewrite bool_decide_eq_true_2 by done.
  - intros r Hr. simpl in Hr. apply list_elem_of_fmap in Hr as ([c n] & -> & Hp).
    apply list_elem_of_In, filter_In in Hp as [Hin Hpos]. simpl in *.
    apply bool_decide_eq_true_1 in Hpos.
    apply list_elem_of_In, list_elem_of_fmap in Hin as (c' & [= -> ->] & Hc').
    exists c'. split; [done |]. by rewrite at_insert_ne, at_singleton, at_insert_eq.
  - intros c Hc Hpos.
    exists (<["Missing Count" := nat_cell (missing_count df c)]> {["Column" := Str c]}).
    split; [| by rewrite at_insert_ne, at_singleton].
    simpl. apply list_elem_of_fmap. exists (c, missing_count df c). split; [done |].
    apply list_elem_of_In, filter_In. split.
    + apply list_elem_of_In, list_elem_of_fmap. eauto.
    + by apply bool_decide_eq_true_2.
Qed.

Lemma missing_summary_witness :
  ¬ no_missing (replace_sentinel with_sentinel) ∧
  Final.missing_values sample_backend (replace_sentinel with_sentinel) =
    (text "## Full Transparency: Missing Value Counts" ;;;
     table sample_backend (missing_frame (isnull_sum (replace_sentinel with_sentinel)))
       "Missing Values Summary").
Proof.
  assert (H : ¬ no_missing (replace_sentinel with_sentinel)).
  { intros Hn.
    refine (Hn "potass" (replace_row (hd ∅ (rows with_sentinel))) _ _ _).
    - apply (bool_decide_unpack _). by vm_compute.
    - simpl. left.
    - by vm_compute. }
  split; [exact H |].
  exact (proj1 (proj1 (proj2 (proj2 (missing_summary sample_backend _))) H)).
Defined.

(** ** The sentinel in the Analyzer's output *)

Lemma replace_cell_not_sentinel (v : cell) : replace_cell v ≠ Num (-1).
Proof.
  destruct v as [|q|s]; simpl; [done | | done].
  case_bool_decide; [done | congruence].
Qed.

(** X11. The replacement is table-wide: in the Analyzer's output of either
    variant no cell of any column equals -1.  A -1 in any column of a
    surviving row (potass, say) has become the missing marker, while text
    cells, the text "-1" included, are kept. *)
Theorem analyzer_output_no_sentinel E c load out :
  snd (Draft.analyze_data E c load) = inr out ∨
  snd (Final.analyze_data E c load) = inr out →
  ∀ r, r ∈ rows out →
    (∀ col, at_ r col ≠ Num (-1)) ∧
    ∃ r0, r0 ∈ rows load ∧
      ∀ col, (at_ r0 col = Num (-1) → at_ r col = NA) ∧
             (∀ s, at_ r0 col = Str s → at_ r col = Str s).
Proof.
  intros H r Hr.
  destruct (analyze_row_origin _ _ _ _ _ H Hr) as (r0 & _ & _ & Hr0 & -> & _).
  split.
  - intros col. rewrite at_replace_row. apply replace_cell_not_sentinel.
  - exists r0. split; [done |]. intros col. rewrite at_replace_row.
    split; [by intros -> | by intros s ->].
Qed.

Lemma analyzer_output_no_sentinel_witness :
  snd (Final.analyze_data sample_backend 85 with_sentinel)
    = inr (replace_sentinel with_sentinel) ∧
  ∀ r, r ∈ rows (replace_sentinel with_sentinel) →
    (∀ col, at_ r col ≠ Num (-1)) ∧
    ∃ r0, r0 ∈ rows with_sentinel ∧
      ∀ col, (at_ r0 col = Num (-1) → at_ r col = NA) ∧
             (∀ s, at_ r0 col = Str s → at_ r col = Str s).
Proof.
  assert (H : snd (Final.analyze_data sample_backend 85 with_sentinel)
              = inr (replace_sentinel with_sentinel)) by (vm_compute; reflexivity).
  split; [exact H |].
  exact (analyzer_output_no_sentinel sample_backend 85 with_sentinel _ (or_intror H)).
Defined.

(** ** More on the threshold filter of the final variant *)

Lemma filter_sublist_mono {A} (p q : A → bool) (l : list A) :
  (∀ x, p x = true → q x = true) → List.filter p l `sublist_of` List.filter q l.
Proof.
  intros Hpq. induction l as [|x l IH]; simpl; [constructor |].
  destruct (p x) eqn:Hp.
  - rewrite (Hpq x Hp). by constructor.
  - destruct (q x); [by constructor | done].
Qed.

(** X8. Raising the threshold never adds rows: for thresholds lo <= hi the
    view at hi is a sub-list of the view at lo, in the same order, so its
    count is no larger. *)
Theorem threshold_monotone df lo hi v_lo v_hi :
  (lo ≤ hi)%Z →
  Final.filtered df lo = inr v_lo →
  Final.filtered df hi = inr v_hi →
  rows v_hi `sublist_of` rows v_lo ∧ (len v_hi ≤ len v_lo)%nat.
Proof.
  intros Hle [_ Hlo]%Final_filtered_inr [_ Hhi]%Final_filtered_inr.
  assert (Hs : rows v_hi `sublist_of` rows v_lo).
  { rewrite Hlo, Hhi. apply fmap_sublist, filter_sublist_mono.
    intros r (q & -> & Hq)%ge_cell_spec. apply ge_cell_spec. exists q.
    split; [done |]. apply number_le_trans with (Qc_of_Z hi); [| exact Hq].
    by apply number_of_Z_le. }
  split; [done |]. by apply sublist_length.
Qed.

Lemma threshold_monotone_witness :
  (0 ≤ 85)%Z ∧
  Final.filtered sample_analyzed 0
    = inr (force_result (Final.filtered sample_analyzed 0)) ∧
  Final.filtered sample_analyzed 85 = inr sample_view ∧
  rows sample_view `sublist_of` rows (force_result (Final.filtered sample_analyzed 0)) ∧
  (len sample_view ≤ len (force_result (Final.filtered sample_analyzed 0)))%nat.
Proof.
  assert (H0 : (0 ≤ 85)%Z) by lia.
  assert (H1 : Final.filtered sample_analyzed 0
               = inr (force_result (Final.filtered sample_analyzed 0)))
    by (vm_compute; reflexivity).
  assert (H2 : Final.filtered sample_analyzed 85 = inr sample_view)
    by (vm_compute; reflexivity).
  split; [exact H0 |]. split; [exact H1 |]. split; [exact H2 |].
  exact (threshold_monotone sample_analyzed 0 85 _ sample_view H0 H1 H2).
Defined.

(** X9. The view exposes nothing but the three projected columns: every row
    of the view has no entry under any other column name, and agrees with
    a row of the analyzed table on name, manufacturer_full and rating. *)
Theorem threshold_view_hides_columns df c v :
  Final.filtered df c = inr v →
  ∀ r', r' ∈ rows v →
    (∀ col, col ∉ view_cols → r' !! col = None) ∧
    ∃ r, r ∈ rows df ∧ ∀ col, col ∈ view_cols → r' !! col = r !! col.
Proof.
  intros [_ Hr]%Final_filtered_inr r' Hr'. rewrite Hr in Hr'.
  apply list_elem_of_fmap in Hr' as (r & -> & Hin).
  apply list_elem_of_In, filter_In in Hin as [Hin _]. split.
  - intros col Hcol. unfold restrict. apply map_lookup_filter_None.
    right. intros x _ Hx. by apply Hcol.
  - exists r. split; [by apply list_elem_of_In |]. intros col Hcol.
    unfold restrict. destruct (r !! col) as [x|] eqn:Hx.
    + by apply map_lookup_filter_Some.
    + apply map_lookup_filter_None. by left.
Qed.

Lemma threshold_view_hides_columns_witness :
  Final.filtered sample_analyzed 85 = inr sample_view ∧
  ∀ r', r' ∈ rows sample_view →
    (∀ col, col ∉ view_cols → r' !! col = None) ∧
    ∃ r, r ∈ rows sample_analyzed ∧ ∀ col, col ∈ view_cols → r' !! col = r !! col.
Proof.
  assert (H : Final.filtered sample_analyzed 85 = inr sample_view)
    by (vm_compute; reflexivity).
  split; [exact H |].
  exact (threshold_view_hides_columns sample_analyzed 85 sample_view H).
Defined.

(** ** The two cleaning steps compared *)

Lemma Final_clean_Draft load out :
  Final.clean load = inr out → Draft.clean load = inr out.
Proof.
  unfold Final.clean, Draft.clean, series_gt. intros H. invert_result.
  apply series_cmp_inr in H0 as (Hc & -> & Hcs).
  apply series_cmp_inr in H1 as (Hr & -> & Hrs).
  rewrite series_cmp_total by done. simpl.
  rewrite series_cmp_total; [simpl | done |].
  - unfold replace_sentinel, loc. simpl. by rewrite filter_filter.
  - intros r [Hin _]%list_elem_of_In%filter_In. apply Hrs. by apply list_elem_of_In.
Qed.

Lemma clean_cols load out :
  Draft.clean load = inr out ∨ Final.clean load = inr out →
  "calories" ∈ columns out ∧ "rating" ∈ columns out ∧
  rows out = replace_row <$> List.filter positive (rows load).
Proof.
  intros H.
  assert (Hd : Draft.clean load = inr out)
    by (destruct H; [done | by apply Final_clean_Draft]).
  clear H. destruct (Draft_clean_inr _ _ Hd) as [Hcols Hrows].
  revert Hd. unfold Draft.clean, series_gt. intros H. invert_result.
  apply series_cmp_inr in H0 as (Hc & _).
  apply series_cmp_inr in H1 as (Hr & _).
  by rewrite Hcols.
Qed.

(** X6. The two variants clean alike.  Whenever the final variant's single
    conjoined mask succeeds, the draft variant's two successive filters
    succeed with the same table; and whenever both Analyzers return, they
    return the same table, whatever the threshold and the sink. *)
Theorem variants_clean_alike load :
  (∀ out, Final.clean load = inr out → Draft.clean load = inr out) ∧
  (∀ E1 E2 c1 c2 a b,
     snd (Draft.analyze_data E1 c1 load) = inr a →
     snd (Final.analyze_data E2 c2 load) = inr b → a = b).
Proof.
  split; [apply Final_clean_Draft |].
  intros E1 E2 c1 c2 a b Ha Hb.
  apply Draft_analyze_inr, Draft_clean_inr in Ha as [Hca Hra].
  apply Final_analyze_inr, Final_clean_inr in Hb as [Hcb Hrb].
  destruct a, b. simpl in *. congruence.
Qed.

Lemma variants_clean_alike_witness :
  Final.clean sample_loaded = inr sample_analyzed ∧
  Draft.clean sample_loaded = inr sample_analyzed.
Proof.
  assert (H : Final.clean sample_loaded = inr sample_analyzed)
    by (vm_compute; reflexivity).
  split; [exact H |].
  exact (proj1 (variants_clean_alike sample_loaded) sample_analyzed H).
Defined.

(** X7. Cleaning is idempotent: a table that came out of the cleaning step
    of either variant passes through the cleaning step of both variants
    unchanged. *)
Theorem clean_idempotent load out :
  Draft.clean load = inr out ∨ Final.clean load = inr out →
  Draft.clean out = inr out ∧ Final.clean out = inr out.
Proof.
  intros H. destruct (clean_cols _ _ H) as (Hc & Hr & Hrows).
  assert (Hpos : ∀ r, r ∈ rows out →
            ∃ cal rat, at_ r "calories" = Num cal ∧ 0 < cal ∧
                       at_ r "rating" = Num rat ∧ 0 < rat).
  { intros r Hin.
    destruct (cleaned_row_origin _ _ _ Hrows Hin)
      as (_ & cal & rat & _ & _ & _ & ? & ? & _ & ? & ?). by exists cal, rat. }
  assert (Hs1 : series_cmp gt_cell "calories" 0 out
                = inr (λ r, gt_cell 0 (at_ r "calories"))).
  { apply series_cmp_total; [done |]. intros r Hin s Hs.
    destruct (Hpos r Hin) as (? & ? & ? & _). congruence. }
  assert (Hs2 : series_cmp gt_cell "rating" 0 out
                = inr (λ r, gt_cell 0 (at_ r "rating"))).
  { apply series_cmp_total; [done |]. intros r Hin s Hs.
    destruct (Hpos r Hin) as (? & ? & _ & _ & ? & _). congruence. }
  assert (Hf : Final.clean out = inr out).
  { unfold Final.clean, series_gt. rewrite Hs1, Hs2. simpl. f_equal.
    destruct out as [cs rs]. unfold replace_sentinel, loc.
    simpl in *. f_equal. rewrite filter_all.
    - rewrite Hrows, <-list_fmap_compose. apply list_fmap_ext.
      intros _ r _. apply replace_row_idemp.
    - intros r Hin. destruct (Hpos r Hin) as (cal & rat & -> & ? & -> & ?).
      simpl. by rewrite !bool_decide_eq_true_2. }
  split; [by apply Final_clean_Draft | done].
Qed.

Lemma clean_idempotent_witness :
  Final.clean sample_loaded = inr sample_analyzed ∧
  Draft.clean sample_analyzed = inr sample_analyzed ∧
  Final.clean sample_analyzed = inr sample_analyzed.
Proof.
  assert (H : Final.clean sample_loaded = inr sample_analyzed)
    by (vm_compute; reflexivity).
  split; [exact H |].
  exact (clean_idempotent sample_loaded sample_analyzed (or_intror H)).
Defined.

(** ** The shape of the Loader's output *)

Lemma elem_of_with_col c cs x : x ∈ with_col c cs ↔ x ∈ cs ∨ x = c.
Proof.
  unfold with_col. case_bool_decide.
  - split; [by left | by intros [?| ->]].
  - rewrite elem_of_app, list_elem_of_singleton. done.
Qed.

Lemma lookup_coerce_row parse cs (r : row) c :
  c ∉ cs → coerce_row parse cs r !! c = r !! c.
Proof.
  revert r. induction cs as [|c0 cs IH]; intros r Hc; simpl; [done |].
  apply not_elem_of_cons in Hc as [Hne Hc].
  rewrite IH by done. by rewrite lookup_insert_ne.
Qed.

Lemma lookup_enrich (r : row) c :
  c ≠ "manufacturer_full" → c ≠ "type_full" → enrich r !! c = r !! c.
Proof. intros. unfold enrich. by rewrite !lookup_insert_ne. Qed.

Lemma loader_columns parse cs src out :
  loader parse cs src = inr out →
  columns out = with_col "type_full" (with_col "manufacturer_full" (columns src)).
Proof.
  unfold loader, dropna_subset, map_col. intros H. invert_result.
  apply coerce_cols_inr in H0 as [Hc _]. unfold setitem, with_col. simpl.
  by rewrite Hc.
Qed.

Lemma loader_row_origin parse cs src out r :
  loader parse cs src = inr out → r ∈ rows out →
  ∃ r0, r0 ∈ rows src ∧
    (∀ c, c ∈ cs → c ≠ "manufacturer_full" → c ≠ "type_full" →
          at_ r c = to_numeric parse (at_ r0 c)) ∧
    (∀ c, c ∉ cs → c ≠ "manufacturer_full" → c ≠ "type_full" →
          r !! c = r0 !! c).
Proof.
  intros H Hr. rewrite (loader_inr _ _ _ _ H) in Hr.
  apply list_elem_of_fmap in Hr as (r0 & -> & Hr0).
  apply list_elem_of_In, filter_In in Hr0 as [Hr0 _].
  exists r0. split; [by apply list_elem_of_In |]. split.
  - intros c Hc ? ?. by rewrite at_enrich, at_coerce_row, bool_decide_eq_true_2.
  - intros c Hc ? ?. by rewrite lookup_enrich, lookup_coerce_row.
Qed.

(** X14. The final Loader keeps the columns of the source and adds
    manufacturer_full and type_full (appended when absent).  It never adds or
    reorders rows, and in a surviving row it changes nothing but the thirteen
    coerced cells, each the numeric reading of the source cell, and the two
    derived cells. *)
Theorem loader_shape E out :
  snd (Final.load_data E) = inr out →
  ∃ src, get_df E "sample_csv" = inr src ∧
    columns out = with_col "type_full" (with_col "manufacturer_full" (columns src)) ∧
    (len out ≤ len src)%nat ∧
    ∀ r, r ∈ rows out →
      ∃ r0, r0 ∈ rows src ∧
        (∀ c, c ∈ Final.numeric_cols →
              at_ r c = to_numeric (parse_float E) (at_ r0 c)) ∧
        (∀ c, c ∉ Final.numeric_cols → c ≠ "manufacturer_full" → c ≠ "type_full" →
              r !! c = r0 !! c).
Proof.
  intros H. apply Final_load_inr in H as (src & Hsrc & H).
  exists src. split; [done |]. split; [by eapply loader_columns |]. split.
  - unfold len. rewrite (loader_inr _ _ _ _ H), length_fmap.
    apply filter_length_le.
  - intros r Hr. destruct (loader_row_origin _ _ _ _ _ H Hr) as (r0 & ? & Hn & Ho).
    exists r0. split; [done |]. split; [| done].
    intros c Hc. destruct (numeric_cols_not_derived c Hc). by apply Hn.
Qed.

Lemma loader_shape_witness :
  snd (Final.load_data sample_backend) = inr sample_loaded ∧
  ∃ src, get_df sample_backend "sample_csv" = inr src ∧
    columns sample_loaded
      = with_col "type_full" (with_col "manufacturer_full" (columns src)) ∧
    (len sample_loaded ≤ len src)%nat.
Proof.
  assert (H : snd (Final.load_data sample_backend) = inr sample_loaded)
    by (vm_compute; reflexivity).
  split; [exact H |].
  destruct (loader_shape sample_backend sample_loaded H) as (src & ? & ? & ? & _).
  exists src. by repeat split.
Defined.

(** ** The final pipeline does not raise on a complete source *)

Lemma require_cols_total df cs :
  (∀ c, c ∈ cs → c ∈ columns df) → require_cols df cs = inr tt.
Proof.
  induction cs as [|c cs IH]; intros H; simpl; [done |].
  unfold require_col. rewrite bool_decide_eq_true_2 by (apply H; left).
  simpl. apply IH. intros x Hx. apply H. by right.
Qed.

Lemma coerce_cols_total parse cs df :
  (∀ c, c ∈ cs → c ∈ columns df) → ∃ df', coerce_cols parse cs df = inr df'.
Proof.
  revert df. induction cs as [|c cs IH]; intros df H; simpl; [eauto |].
  unfold coerce_col, require_col. rewrite bool_decide_eq_true_2 by (apply H; left).
  simpl. apply IH. intros x Hx. unfold setitem. simpl.
  rewrite bool_decide_eq_true_2 by (apply H; left). apply H. by right.
Qed.

Lemma loader_total parse cs src :
  (∀ c, c ∈ cs → c ∈ columns src) → "mfr" ∈ columns src → "type" ∈ columns src →
  ∃ out, loader parse cs src = inr out.
Proof.
  intros Hcs Hm Ht. unfold loader.
  destruct (coerce_cols_total parse cs src Hcs) as [df1 H1]. rewrite H1. simpl.
  apply coerce_cols_inr in H1 as [Hc1 _].
  unfold dropna_subset. rewrite require_cols_total by (by rewrite Hc1). simpl.
  unfold map_col, require_col. simpl.
  rewrite bool_decide_eq_true_2 by (by rewrite Hc1). simpl.
  rewrite bool_decide_eq_true_2; [simpl; eauto |].
  fold (with_col "manufacturer_full" (columns df1)).
  apply elem_of_with_col. left. by rewrite Hc1.
Qed.

(** X5. On a source that has the name, mfr and type columns and the thirteen
    numeric columns, the final pipeline raises nowhere in its data steps: the
    Loader returns a table, the cleaning step accepts that table (coercion
    has left no text in calories and rating), and the threshold filter
    returns a view for every threshold. *)
Theorem final_pipeline_total E src :
  get_df E "sample_csv" = inr src →
  (∀ c, c ∈ required_cols → c ∈ columns src) →
  ∃ out df, snd (Final.load_data E) = inr out ∧ Final.clean out = inr df ∧
            ∀ c, ∃ v, Final.filtered df c = inr v.
Proof.
  intros Hsrc Hreq.
  assert (Hin : ∀ c, c ∈ Final.numeric_cols → c ∈ columns src).
  { intros c Hc. apply Hreq. by do 3 right. }
  destruct (loader_total (parse_float E) Final.numeric_cols src Hin) as [out Hout];
    [apply Hreq; right; left | apply Hreq; right; right; left |].
  assert (Hload : snd (Final.load_data E) = inr out).
  { unfold Final.load_data. by rewrite Hsrc. }
  pose proof (loader_columns _ _ _ _ Hout) as Hcols.
  assert (Hsub : ∀ c, c ∈ columns src → c ∈ columns out).
  { intros c Hc. rewrite Hcols. apply elem_of_with_col. left.
    apply elem_of_with_col. by left. }
  assert (Hnum : ∀ c, c ∈ Final.numeric_cols →
            ∀ r, r ∈ rows out → ∀ s, at_ r c ≠ Str s).
  { intros c Hc r Hr s Hs. destruct (numeric_cols_not_derived c Hc).
    destruct (loader_cells _ _ _ _ r c Hout) as [q Hq]; try done. congruence. }
  assert (Hcal : "calories" ∈ Final.numeric_cols)
    by (apply (bool_decide_unpack _); by vm_compute).
  assert (Hrat : "rating" ∈ Final.numeric_cols)
    by (apply (bool_decide_unpack _); by vm_compute).
  assert (Hclean : ∃ df, Final.clean out = inr df).
  { unfold Final.clean, series_gt.
    rewrite (series_cmp_total gt_cell "calories") by auto.
    rewrite (series_cmp_total gt_cell "rating") by auto. simpl. eauto. }
  destruct Hclean as [df Hdf]. exists out, df. split; [done |]. split; [done |].
  intros c. destruct (clean_cols out df (or_intror Hdf)) as (_ & Hr & Hrows).
  destruct (Final_clean_inr _ _ Hdf) as [Hdc _].
  unfold Final.filtered, series_ge. rewrite series_cmp_total; [simpl | done |].
  - unfold project. rewrite require_cols_total; [simpl; eauto |].
    intros x Hx. simpl. rewrite Hdc.
    repeat (apply elem_of_cons in Hx as [->|Hx]).
    + apply Hsub, Hreq. left.
    + rewrite Hcols. apply elem_of_with_col. left. apply elem_of_with_col. by right.
    + by apply Hsub, Hin.
    + by apply elem_of_nil in Hx.
  - intros r Hin' s Hs.
    destruct (cleaned_row_origin _ _ _ Hrows Hin')
      as (_ & _ & rat & _ & _ & _ & _ & _ & _ & _ & ?). congruence.
Qed.

Lemma final_pipeline_total_witness :
  get_df sample_backend "sample_csv" = inr sample ∧
  (∀ c, c ∈ required_cols → c ∈ columns sample) ∧
  ∃ out df, snd (Final.load_data sample_backend) = inr out ∧
            Final.clean out = inr df ∧ ∀ c, ∃ v, Final.filtered df c = inr v.
Proof.
  assert (H : get_df sample_backend "sample_csv" = inr sample) by reflexivity.
  assert (Hc : ∀ c, c ∈ required_cols → c ∈ columns sample).
  { intros c Hc. revert c Hc. apply Forall_forall.
    apply (bool_decide_unpack _). by vm_compute. }
  split; [exact H |]. split; [exact Hc |].
  exact (final_pipeline_total sample_backend sample H Hc).
Defined.

(** ** The value counts of a column *)

Lemma NoDup_unique l : NoDup (unique l).
Proof.
  unfold unique. rewrite reverse_Permutation. apply NoDup_remove_dups.
Qed.

Lemma count_fmap (f : row → cell) (v : cell) (l : list row) :
  count v (f <$> l) = length (List.filter (λ r, bool_decide (f r = v)) l).
Proof. unfold count. by rewrite filter_map, length_fmap. Qed.

(** X10. The counts table of a column pairs every value present in the column
    with the number of rows holding it, most frequent first.  No value
    appears twice, and missing cells are not counted.  A column the table
    does not have raises KeyError. *)
Theorem value_counts_frame_correct col df :
  (col ∉ columns df → value_counts_frame col df = inl (KeyError col)) ∧
  (col ∈ columns df →
     ∃ vc, value_counts_frame col df =
             inr (mkDF [col; "Count"]
                    ((λ p, <["Count" := nat_cell p.2]> {[col := p.1]}) <$> vc)) ∧
       StronglySorted by_count_desc vc ∧
       NoDup (fst <$> vc) ∧
       ∀ v n, (v, n) ∈ vc ↔
              v ≠ NA ∧ (0 < n)%nat ∧ n = occurrences df col v).
Proof.
  split.
  - intros H. unfold value_counts_frame, getitem, require_col.
    by rewrite bool_decide_eq_false_2.
  - intros H. exists (value_counts ((λ r, at_ r col) <$> rows df)).
    split; [| split; [| split]].
    + unfold value_counts_frame, getitem, require_col.
      by rewrite bool_decide_eq_true_2.
    + apply value_counts_sorted.
    + unfold value_counts. rewrite merge_sort_Permutation, <-list_fmap_compose.
      rewrite (list_fmap_ext _ id) by done.
      rewrite list_fmap_id. apply NoDup_unique.
    + intros v n. rewrite elem_of_value_counts, count_fmap. fold (occurrences df col v).
      split.
      * intros (Hv & Hin & ->). split; [done |]. split; [| done].
        apply list_elem_of_fmap in Hin as (r & -> & Hr). unfold occurrences.
        assert (Hr' : r ∈ List.filter (λ r0, bool_decide (at_ r0 col = at_ r col)) (rows df)).
        { apply list_elem_of_In, filter_In. split; [by apply list_elem_of_In |].
          by apply bool_decide_eq_true_2. }
        destruct (List.filter _ (rows df)); [by apply elem_of_nil in Hr' | simpl; lia].
      * intros (Hv & Hpos & ->). split; [done |]. split; [| done].
        unfold occurrences in Hpos.
        destruct (List.filter _ (rows df)) as [|r l] eqn:Hf; [simpl in Hpos; lia |].
        assert (Hr : In r (List.filter (λ r0, bool_decide (at_ r0 col = v)) (rows df)))
          by (rewrite Hf; by left).
        apply filter_In in Hr as [Hr Hv']. apply bool_decide_eq_true_1 in Hv'.
        apply list_elem_of_fmap. exists r. split; [done | by apply list_elem_of_In].
Qed.

Lemma value_counts_frame_correct_witness :
  ("name" ∈ columns sample_analyzed) ∧
  ∃ vc, value_counts_frame "name" sample_analyzed =
          inr (mkDF ["name"; "Count"]
                 ((λ p, <["Count" := nat_cell p.2]> {["name" := p.1]}) <$> vc)) ∧
        StronglySorted by_count_desc vc.
Proof.
  assert (H : "name" ∈ columns sample_analyzed)
    by (apply (bool_decide_unpack _); by vm_compute).
  split; [exact H |].
  destruct (proj2 (value_counts_frame_correct "name" sample_analyzed) H)
    as (vc & Hvc & Hs & _).
  exists vc. split; [exact Hvc | exact Hs].
Defined.

(** ** The query executor answering nothing *)

(** X15. When the query executor answers None, the introductory queries of
    the final variant are skipped silently: only the heading is shown and
    nothing is raised.  The draft variant's threshold step has no such guard
    and raises AttributeError right after the slider. *)
Theorem query_answers_none E c :
  (∀ q, query E q "sample_csv" = inr None) →
  Final.getting_started E =
    ([EvText "## Getting Started: Looking at Cereal a Different Way"], inr tt) ∧
  Draft.rating_filter E c =
    ([EvText "## 🔍 Explore Cereals by Rating Threshold";
      EvSlider "Minimum Rating" 0 100 5 40],
     inl (AttributeError "'NoneType' object has no attribute 'empty'")).
Proof.
  intros H. split.
  - unfold Final.getting_started. by rewrite !H.
  - unfold Draft.rating_filter, Draft.top_rated. by rewrite H.
Qed.

Lemma query_answers_none_witness :
  (∀ q, query offline q "sample_csv" = inr None) ∧
  Final.getting_started offline =
    ([EvText "## Getting Started: Looking at Cereal a Different Way"], inr tt).
Proof.
  assert (H : ∀ q, query offline q "sample_csv" = inr None) by reflexivity.
  split; [exact H |].
  exact (proj1 (query_answers_none offline 40 H)).
Defined.

(** ** The grouped means of the two variants compared *)

Lemma dropna_no_missing df : no_missing df → dropna df = df.
Proof.
  intros H. destruct df as [cs rs]. unfold dropna, loc. simpl. f_equal.
  apply filter_all. intros r Hr. unfold complete_on. apply forallb_forall.
  intros c Hc. apply list_elem_of_In in Hc. specialize (H c r Hc Hr).
  simpl in H. unfold notna. by destruct (at_ r c).
Qed.

Lemma groupby_mean_cols key cs df g :
  groupby_mean key cs df = inr g → ∀ c, c ∈ cs → c ∈ columns df.
Proof.
  unfold groupby_mean. intros H. invert_result. by eapply require_cols_inr.
Qed.

Lemma float_dtype_no_missing df c :
  no_missing df → c ∈ columns df → float_dtype df c = true.
Proof.
  intros H Hc. unfold float_dtype. apply forallb_forall. intros r Hr.
  apply list_elem_of_In in Hr. specialize (H c r Hc Hr). unfold notna.
  by destruct (at_ r c).
Qed.

(** X12. On a table without missing cells the two Visualizers compute the
    same grouped means: all three mean columns have kept their float dtype,
    so the final variant's result is the draft variant's result with the
    library's rounding applied to the three mean columns (the type_full key
    kept), and one raises exactly when the other does, with the same
    exception. *)
Theorem avg_variants_agree E df :
  no_missing df →
  Final.avg_df E df =
    (let+ t := Draft.avg_df df in inr (round_means (round2 E) "type_full" t)).
Proof.
  intros H. unfold Final.avg_df, Draft.avg_df. rewrite (dropna_no_missing _ H).
  destruct (groupby_mean "type_full" ["calories"; "protein"; "fat"] df)
    as [e|g] eqn:Hg; simpl; [done |].
  f_equal. unfold reset_index, round_means, round_grouped. simpl. f_equal.
  rewrite <-!list_fmap_compose. apply list_fmap_ext. intros n p Hn. simpl.
  apply list_elem_of_lookup_2 in Hn. rewrite at_insert_eq.
  apply map_eq. intros i. destruct (decide (i = "type_full")) as [->|Hi].
  - by rewrite !lookup_insert_eq.
  - rewrite !lookup_insert_ne, map_lookup_imap, lookup_fmap, lookup_insert_ne by done.
    destruct (p.2 !! i) as [v|] eqn:Hv; simpl; [| done].
    pose proof (groupby_mean_dom _ _ _ _ _ _ Hg Hn Hv) as Hmem.
    rewrite bool_decide_eq_true_2; [done |].
    apply elem_of_float_cols. split; [done |].
    apply float_dtype_no_missing; [done |]. by eapply groupby_mean_cols.
Qed.

Lemma avg_variants_agree_witness :
  no_missing (analyzed_final cold_hot) ∧
  Final.avg_df sample_backend (analyzed_final cold_hot) =
    (let+ t := Draft.avg_df (analyzed_final cold_hot) in
     inr (round_means (round2 sample_backend) "type_full" t)).
Proof.
  assert (H : no_missing (analyzed_final cold_hot)).
  { assert (Hall : Forall (λ r, Forall (λ c, at_ r c ≠ NA)
                                  (columns (analyzed_final cold_hot)))
                          (rows (analyzed_final cold_hot)))
      by (apply (bool_decide_unpack _); by vm_compute).
    intros c r Hc Hr. rewrite Forall_forall in Hall.
    specialize (Hall r Hr). rewrite Forall_forall in Hall. by apply Hall. }
  split; [exact H |].
  exact (avg_variants_agree sample_backend (analyzed_final cold_hot) H).
Defined.

(** ** The Visualizer on the final pipeline's table *)

Lemma mean_cell_total vs :
  (∀ v, v ∈ vs → ∀ s, v ≠ Str s) → ∃ m, mean_cell vs = inr m.
Proof.
  intros H. unfold mean_cell.
  destruct (rmapM_total numeric vs) as [us ->].
  - intros v Hv. specialize (H v Hv). destruct v; simpl; eauto. by destruct (H s).
  - simpl. destruct (numbers vs); eauto.
Qed.

Lemma groupby_mean_total key cs df :
  key ∈ columns df → (∀ c, c ∈ cs → c ∈ columns df) →
  (∀ c r, c ∈ cs → r ∈ rows df → ∀ s, at_ r c ≠ Str s) →
  ∃ g, groupby_mean key cs df = inr g.
Proof.
  intros Hk Hcs Hnum. unfold groupby_mean, require_col.
  rewrite bool_decide_eq_true_2 by done. simpl.
  rewrite require_cols_total by done. simpl.
  apply rmapM_total. intros k _. unfold group_mean_row.
  destruct (rmapM_total
    (λ c, let+ m := mean_cell ((λ r, at_ r c) <$> group_rows key k df) in inr (c, m))
    cs) as [ms ->]; [| simpl; eauto].
  intros c Hc. destruct (mean_cell_total ((λ r, at_ r c) <$> group_rows key k df))
    as [m ->]; [| simpl; eauto].
  intros v (r & -> & Hr)%list_elem_of_fmap. apply Hnum; [done |].
  by apply list_elem_of_In, filter_In in Hr as [?%list_elem_of_In _].
Qed.

Lemma coerce_cols_present parse cs df df' :
  coerce_cols parse cs df = inr df' → ∀ c, c ∈ cs → c ∈ columns df.
Proof.
  revert df. induction cs as [|c0 cs IH]; intros df H c Hc; simpl in *.
  - by apply elem_of_nil in Hc.
  - unfold coerce_col at 1 in H. invert_result.
    apply require_col_inr in H1.
    apply elem_of_cons in Hc as [->|Hc]; [done |].
    specialize (IH _ H c Hc). unfold setitem in IH. simpl in IH.
    by rewrite bool_decide_eq_true_2 in IH.
Qed.

(** X13. On the table produced by the final Loader and the final cleaning
    step the grouped-mean computation of the final Visualizer never raises:
    it yields a table over type_full, calories, protein and fat, and the
    Visualizer runs through to its last alert. *)
Theorem final_visualizer_total E out df :
  snd (Final.load_data E) = inr out →
  Final.clean out = inr df →
  ∃ t, Final.avg_df E df = inr t ∧
       columns t = ["type_full"; "calories"; "protein"; "fat"] ∧
       snd (Final.visualize_data E df) = inr tt.
Proof.
  intros Hload Hclean. apply Final_load_inr in Hload as (src & _ & Hload).
  pose proof (loader_columns _ _ _ _ Hload) as Hcols.
  destruct (Final_clean_inr _ _ Hclean) as [Hdc Hrows].
  assert (Hsrc : ∀ c, c ∈ Final.numeric_cols → c ∈ columns df).
  { intros c Hc. rewrite Hdc, Hcols. apply elem_of_with_col. left.
    apply elem_of_with_col. left. revert Hload. unfold loader. intros H.
    apply rbind_inr in H as (d1 & H1 & _). by eapply coerce_cols_present. }
  destruct (groupby_mean_total "type_full" ["calories"; "protein"; "fat"] df)
    as [g Hg].
  - rewrite Hdc, Hcols. apply elem_of_with_col. by right.
  - intros c Hc. apply Hsrc. revert c Hc. apply Forall_forall.
    apply (bool_decide_unpack _). by vm_compute.
  - intros c r Hc Hr s Hs.
    assert (Hn : c ∈ Final.numeric_cols).
    { clear Hs. revert c Hc. apply Forall_forall.
      apply (bool_decide_unpack _). by vm_compute. }
    destruct (cleaned_row_origin _ _ _ Hrows Hr) as (r0 & _ & _ & Hr0 & -> & _).
    destruct (numeric_cols_not_derived c Hn).
    destruct (loader_cells _ _ _ _ r0 c Hload) as [q Hq]; try done.
    rewrite at_replace_row, Hq in Hs. simpl in Hs. by case_bool_decide.
  - eexists.
    assert (Havg : Final.avg_df E df = inr
              (reset_index "type_full" ["calories"; "protein"; "fat"]
                 (round_grouped (round2 E)
                    (float_cols df ["calories"; "protein"; "fat"]) g))).
    { unfold Final.avg_df. by rewrite Hg. }
    split; [exact Havg |]. split; [done |].
    unfold Final.visualize_data. simpl. by rewrite Havg.
Qed.

Lemma final_visualizer_total_witness :
  snd (Final.load_data sample_backend) = inr sample_loaded ∧
  Final.clean sample_loaded = inr sample_analyzed ∧
  ∃ t, Final.avg_df sample_backend sample_analyzed = inr t ∧
       columns t = ["type_full"; "calories"; "protein"; "fat"] ∧
       snd (Final.visualize_data sample_backend sample_analyzed) = inr tt.
Proof.
  assert (H : snd (Final.load_data sample_backend) = inr sample_loaded)
    by (vm_compute; reflexivity).
  assert (Hc : Final.clean sample_loaded = inr sample_analyzed)
    by (vm_compute; reflexivity).
  split; [exact H |]. split; [exact Hc |].
  exact (final_visualizer_total sample_backend sample_loaded sample_analyzed H Hc).
Defined.

(** ** What the Analyzer keeps *)

Lemma replace_cell_other (v : cell) : v ≠ Num (-1) → replace_cell v = v.
Proof.
  destruct v as [|q|s]; simpl; [done | | done].
  intros H. case_bool_decide; [congruence | done].
Qed.

(** X18. The Analyzer of either variant keeps the columns of its input, never
    adds rows, and in a surviving row leaves every cell that is not -1
    exactly as it was. *)
Theorem analyzer_preserves E c load out :
  snd (Draft.analyze_data E c load) = inr out ∨
  snd (Final.analyze_data E c load) = inr out →
  columns out = columns load ∧
  (len out ≤ len load)%nat ∧
  ∀ r, r ∈ rows out →
    ∃ r0, r0 ∈ rows load ∧ ∀ col, at_ r0 col ≠ Num (-1) → r !! col = r0 !! col.
Proof.
  intros H. pose proof (analyze_rows _ _ _ _ H) as Hrows.
  split; [| split].
  - destruct H as [H|H].
    + by apply Draft_analyze_inr, Draft_clean_inr in H as [? _].
    + by apply Final_analyze_inr, Final_clean_inr in H as [? _].
  - unfold len. rewrite Hrows, length_fmap. apply filter_length_le.
  - intros r Hr. destruct (cleaned_row_origin _ _ _ Hrows Hr) as (r0 & _ & _ & Hr0 & -> & _).
    exists r0. split; [done |]. intros col Hcol. unfold replace_row.
    rewrite lookup_fmap. unfold at_ in Hcol.
    destruct (r0 !! col) as [v|]; simpl in *; [| done].
    by rewrite replace_cell_other.
Qed.

Lemma analyzer_preserves_witness :
  snd (Final.analyze_data sample_backend 85 sample_loaded) = inr sample_analyzed ∧
  columns sample_analyzed = columns sample_loaded ∧
  (len sample_analyzed ≤ len sample_loaded)%nat.
Proof.
  assert (H : snd (Final.analyze_data sample_backend 85 sample_loaded)
              = inr sample_analyzed) by (vm_compute; reflexivity).
  split; [exact H |].
  destruct (analyzer_preserves sample_backend 85 sample_loaded sample_analyzed
              (or_intror H)) as (Hc & Hl & _).
  split; [exact Hc | exact Hl].
Defined.

(** ** Text in the calories column *)

Lemma rmapM_comparable_text vs s :
  Str s ∈ vs →
  rmapM comparable vs
    = inl (TypeError "'>' not supported between instances of 'str' and 'int'").
Proof.
  induction vs as [|v vs IH]; intros Hin; [by apply elem_of_nil in Hin |].
  apply elem_of_cons in Hin as [<-|Hin]; [done |].
  simpl. destruct v; simpl; [| | done]; by rewrite IH.
Qed.

Lemma clean_text_calories load r s :
  "calories" ∈ columns load → r ∈ rows load → at_ r "calories" = Str s →
  Draft.clean load
    = inl (TypeError "'>' not supported between instances of 'str' and 'int'") ∧
  Final.clean load
    = inl (TypeError "'>' not supported between instances of 'str' and 'int'").
Proof.
  intros Hc Hr Hs.
  assert (H : series_gt "calories" 0 load
    = inl (TypeError "'>' not supported between instances of 'str' and 'int'")).
  { unfold series_gt, series_cmp, getitem, require_col.
    rewrite bool_decide_eq_true_2 by done. simpl.
    rewrite (rmapM_comparable_text _ s); [done |].
    apply list_elem_of_fmap. exists r. by rewrite Hs. }
  unfold Draft.clean, Final.clean. by rewrite H.
Qed.

Lemma Draft_load_body_loader E src :
  get_df E "sample_csv" = inr src →
  Draft.load_body E = loader (parse_float E) ["carbo"; "sugars"; "potass"] src.
Proof.
  intros H. unfold Draft.load_body, loader. rewrite H. simpl.
  destruct (coerce_col _ "carbo" src) as [|d1]; [done |]. simpl.
  destruct (coerce_col _ "sugars" d1) as [|d2]; [done |]. simpl.
  by destruct (coerce_col _ "potass" d2) as [|d3].
Qed.

(** X16. The draft Loader does not coerce calories, so a text cell there
    survives it, and the Analyzer of either variant raises TypeError on such
    a table before anything is shown.  The draft pipeline therefore stops
    with TypeError as soon as one row that passes its Loader has text in
    calories. *)
Theorem draft_text_calories E c src r0 s :
  get_df E "sample_csv" = inr src →
  (∀ col, col ∈ draft_cols → col ∈ columns src) →
  r0 ∈ rows src →
  parses_all (parse_float E) ["carbo"; "sugars"; "potass"] r0 = true →
  at_ r0 "calories" = Str s →
  ∃ out r, Draft.load_data E = ([], inr out) ∧
    r ∈ rows out ∧ at_ r "calories" = Str s ∧
    Final.analyze_data E c out
      = ([], inl (TypeError "'>' not supported between instances of 'str' and 'int'")) ∧
    bind (Draft.load_data E) (Draft.analyze_data E c)
      = ([], inl (TypeError "'>' not supported between instances of 'str' and 'int'")).
Proof.
  intros Hsrc Hcols Hr0 Hp Hs.
  destruct (loader_total (parse_float E) ["carbo"; "sugars"; "potass"] src) as [out Hout].
  - intros x Hx. apply Hcols. unfold draft_cols.
    repeat (apply elem_of_cons in Hx as [->|Hx]; [set_solver |]).
    by apply elem_of_nil in Hx.
  - apply Hcols. set_solver.
  - apply Hcols. set_solver.
  - assert (Hload : Draft.load_data E = ([], inr out)).
    { unfold Draft.load_data. by rewrite (Draft_load_body_loader _ _ Hsrc), Hout. }
    set (r := enrich (coerce_row (parse_float E) ["carbo"; "sugars"; "potass"] r0)).
    assert (Hr : r ∈ rows out).
    { rewrite (loader_inr _ _ _ _ Hout). apply list_elem_of_fmap. exists r0.
      split; [done |]. apply list_elem_of_In, filter_In.
      split; [by apply list_elem_of_In | done]. }
    assert (Hcal : at_ r "calories" = Str s).
    { unfold r. rewrite at_enrich, at_coerce_row by done.
      by rewrite bool_decide_eq_false_2
        by (apply (bool_decide_unpack _); by vm_compute). }
    assert (Hc : "calories" ∈ columns out).
    { rewrite (loader_columns _ _ _ _ Hout). apply elem_of_with_col. left.
      apply elem_of_with_col. left. apply Hcols. set_solver. }
    destruct (clean_text_calories out r s Hc Hr Hcal) as [Hd Hf].
    exists out, r. split; [done |]. split; [done |]. split; [done |]. split.
    + unfold Final.analyze_data. by rewrite Hf.
    + rewrite Hload. unfold bind at 1. unfold Draft.analyze_data. by rewrite Hd.
Qed.

Lemma draft_text_calories_witness :
  bind (Draft.load_data (stub text_calories None [] []))
       (Draft.analyze_data (stub text_calories None [] []) 40)
    = ([], inl (TypeError "'>' not supported between instances of 'str' and 'int'")).
Proof.
  assert (H1 : get_df (stub text_calories None [] []) "sample_csv" = inr text_calories)
    by reflexivity.
  assert (H2 : ∀ col, col ∈ draft_cols → col ∈ columns text_calories).
  { apply Forall_forall. apply (bool_decide_unpack _). by vm_compute. }
  assert (H3 : cereal "Corn Pops" "K" "C" (Str "110") (num 1) (num 36)
               ∈ rows text_calories) by (simpl; left).
  assert (H4 : parses_all (parse_float (stub text_calories None [] []))
                 ["carbo"; "sugars"; "potass"]
                 (cereal "Corn Pops" "K" "C" (Str "110") (num 1) (num 36)) = true)
    by (by vm_compute).
  assert (H5 : at_ (cereal "Corn Pops" "K" "C" (Str "110") (num 1) (num 36)) "calories"
               = Str "110") by (by vm_compute).
  destruct (draft_text_calories _ 40 _ _ _ H1 H2 H3 H4 H5) as (? & ? & _ & _ & _ & _ & H).
  exact H.
Defined.

(** ** A sink failure on the view table *)

(** X17. The final variant emits the count alert before it renders the view:
    when the sink refuses the view table the alert has already been shown
    and the exception propagates.  The draft variant renders the table
    first, so the same failure leaves nothing shown. *)
Theorem view_table_failure E top c e :
  render_table E top ("Cereals Rated " +:+ pretty c +:+ "+") = inl e →
  (∃ msg, Final.show_filtered E top c = ([EvAlert msg success], inl e)) ∧
  (empty top = false → Draft.show_top_rated E top c = ([], inl e)).
Proof.
  intros H. split.
  - unfold Final.show_filtered. rewrite (table_raises _ _ _ _ H).
    case_bool_decide; eexists; reflexivity.
  - intros Hne. unfold Draft.show_top_rated. rewrite Hne. simpl.
    by rewrite (table_raises _ _ _ _ H).
Qed.

Lemma view_table_failure_witness :
  render_table (stub sample None ["Cereals Rated 85+"] []) one_match
    ("Cereals Rated " +:+ pretty 85%Z +:+ "+") = inl (ExternalError "render failed") ∧
  ∃ msg, Final.show_filtered (stub sample None ["Cereals Rated 85+"] []) one_match 85
         = ([EvAlert msg success], inl (ExternalError "render failed")).
Proof.
  assert (H : render_table (stub sample None ["Cereals Rated 85+"] []) one_match
                ("Cereals Rated " +:+ pretty 85%Z +:+ "+")
              = inl (ExternalError "render failed")) by (by vm_compute).
  split; [exact H |].
  exact (proj1 (view_table_failure _ one_match 85 _ H)).
Defined.
